(** * pyinseq: the orchestration script [pyinseq.py]

    A shallow embedding of [parseArgs], the [cd] context manager and [main]
    of [src/pyinseq.py], and the properties of the pipeline that follow
    from the way [main] sequences its collaborators.

    The modules [demultiplex], [gbkconvert], [mapReads], [processMapping]
    and [utils] are imported by the script; their functions appear here as
    the fields of the record [Collaborators].  Each of them may read and
    write the operating-system state and may raise. *)

From Stdlib Require Import PrimFloat Ascii String.
From Stdlib Require Import Lia.
From stdpp Require Import base option list strings gmap.

Local Open Scope string_scope.
Local Open Scope list_scope.

(** ** Python values used by the script *)

(** Exceptions that can escape from [main]. *)
Inductive Exn : Type :=
  | IndexError
  | KeyError (key : string)
  | ValueError
  | FileNotFoundError (path : string)
  | SystemExit (code : nat)
  | ConfigurationError
  | ExternalError (who : string).

(** The result of evaluating a Python expression or statement. *)
Inductive Outcome (A : Type) : Type :=
  | Ok (a : A)
  | Raise (e : Exn).
Arguments Ok {A} a.
Arguments Raise {A} e.

Definition is_ok {A} (r : Outcome A) : bool :=
  match r with Ok _ => true | Raise _ => false end.

(** A sample entry is a [dict] with ad hoc string keys
    (['name'], ['barcode'], and later the two path fields). *)
Abbreviation SampleRec := (gmap string string).

(** [samplesDict] is an [OrderedDict]: iteration order is insertion order. *)
Definition Registry : Type := list (string * SampleRec).

(** "Dictionary of each sample's cpm by gene". *)
Definition GeneMapping : Type := list (string * float).
Definition GeneMappings : Type := list (string * GeneMapping).

Definition keys {V} (d : list (string * V)) : list string := map fst d.

(** [d[k]] on an ordered dictionary. *)
Fixpoint alist_get {V} (k : string) (d : list (string * V)) : option V :=
  match d with
  | [] => None
  | (k', v) :: d' => if decide (k = k') then Some v else alist_get k d'
  end.

(** [d[k] = v] on an ordered dictionary: an existing key keeps its
    position, a new key goes last. *)
Fixpoint alist_set {V} (k : string) (v : V) (d : list (string * V))
  : list (string * V) :=
  match d with
  | [] => [(k, v)]
  | (k', v') :: d' =>
      if decide (k = k') then (k, v) :: d' else (k', v') :: alist_set k v d'
  end.

(** [s[-1]]: the last character, [None] for the empty string. *)
Fixpoint last_char (s : string) : option ascii :=
  match s with
  | EmptyString => None
  | String c EmptyString => Some c
  | String _ s' => last_char s'
  end.

(** ** The operating-system state seen by the script

    A file or a directory is named by its absolute path in normal form: no
    empty component, no [.] and no [..], no slash at the end.  Every path
    handed to the operating system is brought to that form first, from
    the current directory when it is relative, so that two spellings of a
    path name one file.  The normal form is read off the text of the
    path: the directories on the way are not looked up, and symbolic links
    are not modelled. *)
Record OS : Type := mkOS {
  cwd : string;
  dirs : gset string;
  files : gset string
}.

Definition is_abs (p : string) : bool :=
  match p with
  | String c _ => bool_decide (c = "/"%char)
  | EmptyString => false
  end.

(** The pieces of a path between its slashes. *)
Fixpoint components (p : string) : list string :=
  match p with
  | EmptyString => [EmptyString]
  | String c p' =>
      if bool_decide (c = "/"%char) then EmptyString :: components p'
      else match components p' with
           | [] => [String c EmptyString]
           | x :: xs => String c x :: xs
           end
  end.

(** One step down a path; [stack] holds the directories entered so far,
    the innermost first.  An empty component and [.] stay where they are,
    [..] goes one up and stays at the root when it is there. *)
Definition enter (stack : list string) (name : string) : list string :=
  if decide (name = "" \/ name = ".") then stack
  else if decide (name = "..") then tail stack
  else name :: stack.

Definition render (stack : list string) : string :=
  match stack with
  | [] => "/"
  | _ => foldl (λ acc name, "/" +:+ name +:+ acc) "" stack
  end.

(** The normal form of an absolute path. *)
Definition normal_form (p : string) : string :=
  render (foldl enter [] (components p)).

(** The path [p] as seen from the directory [c]. *)
Definition resolve_at (c p : string) : string :=
  normal_form (if is_abs p then p else c +:+ "/" +:+ p).

(** A path that is its own normal form, as [os.getcwd] returns. *)
Definition canonical (p : string) : Prop := normal_form p = p.

Definition resolve (os : OS) (p : string) : string := resolve_at (cwd os) p.

(** [os.chdir(p)] *)
Definition os_chdir (p : string) (os : OS) : Outcome unit * OS :=
  let t := resolve os p in
  if decide (t ∈ dirs os)
  then (Ok tt, mkOS t (dirs os) (files os))
  else (Raise (FileNotFoundError p), os).

(** [os.remove(p)] *)
Definition os_remove (p : string) (os : OS) : Outcome unit * OS :=
  let t := resolve os p in
  if decide (t ∈ files os)
  then (Ok tt, mkOS (cwd os) (dirs os) (files os ∖ {[ t ]}))
  else (Raise (FileNotFoundError p), os).

(** ** Calls made by [main] to its collaborators, and the files it
    removes, in the order they are made *)
Inductive Event : Type :=
  | EConvertToFilename (name : string)
  | ESamplePrep (samples : string) (barcode_qc : bool)
  | ECreateDirs (experiment : string)
  | ECopyfile (src dst : string)
  | EDemultiplex (reads : string) (reg : Registry) (experiment : string)
  | EGbk2fna (gbk organism dir : string)
  | EGbk2ftt (gbk organism dir : string)
  | EBowtieBuild (organism : string)
  | ETrim (inp out sample : string) (barcode_length : nat)
  | EBowtieMap (organism bowtie_in bowtie_out : string)
  | ERemove (path : string)
  | EMapSites (path : string)
  | EMapGenes (organism sample : string) (disruption : float)
      (experiment : string)
  | EBuildGeneTable (organism : string) (reg : Registry)
      (gm : GeneMappings) (experiment : string).

Record World : Type := mkWorld {
  w_os : OS;
  w_log : list Event
}.

(** ** The monad of the script: state and exceptions.  The state reached
    when an exception is raised is kept. *)
Definition M (A : Type) : Type := World -> Outcome A * World.

Definition ret {A} (a : A) : M A := fun w => (Ok a, w).

Definition bind {A B} (m : M A) (k : A -> M B) : M B := fun w =>
  match m w with
  | (Ok a, w') => k a w'
  | (Raise e, w') => (Raise e, w')
  end.

Definition lift {A} (r : Outcome A) : M A := fun w => (r, w).

Notation "x <- c1 ;; c2" := (bind c1 (fun x => c2))
  (at level 100, c1 at next level, right associativity).
Notation "c1 ;;; c2" := (bind c1 (fun _ => c2))
  (at level 100, right associativity).

(** A call that reaches outside [main]: it is recorded, then run on the
    operating-system state. *)
Definition call {A} (ev : Event) (f : OS -> Outcome A * OS) : M A := fun w =>
  let '(r, os') := f (w_os w) in
  (r, mkWorld os' (w_log w ++ [ev])).

(** [for x in xs: body], threading the local variables [acc]. *)
Fixpoint for_each {A S} (xs : list A) (body : S -> A -> M S) (acc : S) : M S :=
  match xs with
  | [] => ret acc
  | x :: xs' => acc' <- body acc x ;; for_each xs' body acc'
  end.

(** ** Command line *)

(** One recognised option on the command line, with its value.  Cutting
    [sys.argv] into options is the work of [argparse]; [parseArgs] is
    modelled on the options it finds. *)
Inductive OptOcc : Type :=
  | OInput (v : string)
  | OSamples (v : string)
  | OExperiment (v : string)
  | OGenome (v : string)
  | ODisruption (v : string)
  | ONoBarcodes
  | OHelp.

(** The value of [args.disruption]: the default is the float [1.0], a
    value given on the command line is a string. *)
Inductive ArgVal : Type :=
  | VFloat (x : float)
  | VStr (s : string).

Record Args : Type := mkArgs {
  a_input : string;
  a_samples : string;
  a_experiment : string;
  a_genome : string;
  a_disruption : ArgVal;
  a_nobarcodes : bool
}.

Definition opt_input (o : OptOcc) : option string :=
  match o with OInput v => Some v | _ => None end.
Definition opt_samples (o : OptOcc) : option string :=
  match o with OSamples v => Some v | _ => None end.
Definition opt_experiment (o : OptOcc) : option string :=
  match o with OExperiment v => Some v | _ => None end.
Definition opt_genome (o : OptOcc) : option string :=
  match o with OGenome v => Some v | _ => None end.
Definition opt_disruption (o : OptOcc) : option string :=
  match o with ODisruption v => Some v | _ => None end.
Definition opt_nobarcodes (o : OptOcc) : option unit :=
  match o with ONoBarcodes => Some tt | _ => None end.

(** The last occurrence of an option wins. *)
Definition last_opt {A} (f : OptOcc -> option A) (argv : list OptOcc)
  : option A :=
  last (omap f argv).

Definition is_help (o : OptOcc) : bool :=
  match o with OHelp => true | _ => false end.

(** [parseArgs]: four required options, [-d] with default [1.0],
    [--nobarcodes] a flag with default [False].  [-h], which [argparse]
    adds by itself, prints the help and exits with status 0 as soon as it
    is met, whatever else is on the command line; otherwise a missing
    required option makes [argparse] exit with status 2. *)
Definition parseArgs (argv : list OptOcc) : Outcome Args :=
  if existsb is_help argv then Raise (SystemExit 0) else
  match last_opt opt_input argv, last_opt opt_samples argv,
        last_opt opt_experiment argv, last_opt opt_genome argv with
  | Some i, Some s, Some e, Some g =>
      Ok (mkArgs i s e g
            (default (VFloat 1.0%float) (VStr <$> last_opt opt_disruption argv))
            (bool_decide (is_Some (last_opt opt_nobarcodes argv))))
  | _, _, _, _ => Raise (SystemExit 2)
  end.

(** [float(v)]: a float is returned as it is, a string is parsed by the
    interpreter ([float_of_str]) and raises [ValueError] when it is not a
    number. *)
Definition py_float (float_of_str : string -> option float) (v : ArgVal)
  : Outcome float :=
  match v with
  | VFloat x => Ok x
  | VStr s =>
      match float_of_str s with
      | Some x => Ok x
      | None => Raise ValueError
      end
  end.

(** ** The collaborators imported by the script *)
Record Collaborators : Type := mkCollaborators {
  (* builtins and standard library *)
  float_of_str : string -> option float;
  expanduser : string -> string;
  copyfile : string -> string -> OS -> Outcome unit * OS;
  (* utils *)
  convert_to_filename : string -> OS -> Outcome string * OS;
  createExperimentDirectories : string -> OS -> Outcome unit * OS;
  (* demultiplex; [demultiplex_fastq] is handed the registry object itself
     and returns it as it has left it *)
  sample_prep : string -> bool -> OS -> Outcome Registry * OS;
  demultiplex_fastq :
    string -> Registry -> string -> OS -> Outcome Registry * OS;
  trim_fastq : string -> string -> string -> nat -> OS -> Outcome unit * OS;
  (* gbkconvert *)
  gbk2fna : string -> string -> string -> OS -> Outcome unit * OS;
  gbk2ftt : string -> string -> string -> OS -> Outcome unit * OS;
  (* mapReads *)
  bowtieBuild : string -> OS -> Outcome unit * OS;
  bowtieMap : string -> string -> string -> OS -> Outcome unit * OS;
  (* processMapping *)
  mapSites : string -> OS -> Outcome unit * OS;
  mapGenes :
    string -> string -> float -> string -> OS -> Outcome GeneMapping * OS;
  buildGeneTable :
    string -> Registry -> GeneMappings -> string -> OS -> Outcome unit * OS
}.

Section Script.

Context (C : Collaborators).

(** ** [class cd] *)

(** [os.chdir] touches the operating-system state only. *)
Definition chdir (p : string) : M unit := fun w =>
  let '(r, os') := os_chdir p (w_os w) in
  (r, mkWorld os' (w_log w)).

Definition remove (p : string) : M unit := call (ERemove p) (os_remove p).

(** [with cd(newPath): body].  [__enter__] saves the current directory and
    changes to [newPath]; when that raises, the body and [__exit__] do not
    run.  [__exit__] runs whether the body returns or raises, changes back
    and returns [None], so an exception of the body is raised again. *)
Definition cd {A} (newPath : string) (body : M A) : M A := fun w =>
  let newPath' := expanduser C newPath in
  let savedPath := cwd (w_os w) in
  match chdir newPath' w with
  | (Raise e, w1) => (Raise e, w1)
  | (Ok _, w1) =>
      let '(r, w2) := body w1 in
      match chdir savedPath w2 with
      | (Raise e, w3) => (Raise e, w3)
      | (Ok _, w3) => (r, w3)
      end
  end.

(** ** [main] *)

Definition organism : string := "genome".

Definition genomeDir (experiment : string) : string :=
  experiment +:+ "/genome_lookup/".

Definition barcode_settings (nobarcodes : bool) : bool * nat :=
  if nobarcodes then (false, 0) else (true, 4).

Definition dict_get (s : SampleRec) (k : string) : Outcome string :=
  match s !! k with
  | Some v => Ok v
  | None => Raise (KeyError k)
  end.

Definition reg_get (reg : Registry) (sample : string) : Outcome SampleRec :=
  match alist_get sample reg with
  | Some s => Ok s
  | None => Raise (KeyError sample)
  end.

Definition demultiplexedPath_of (experiment sampleName : string) : string :=
  experiment +:+ "/raw_data/" +:+ sampleName +:+ ".fastq.gz".

Definition trimmedPath_of (experiment sampleName : string) : string :=
  experiment +:+ "/" +:+ sampleName +:+ "_trimmed.fastq".

(** Lines 93-100: the body of the loop that adds the two path fields. *)
Definition attach_paths_body (experiment : string) (reg : Registry)
    (sample : string) : M Registry :=
  s <- lift (reg_get reg sample) ;;
  nm <- lift (dict_get s "name") ;;
  let demultiplexedPath := demultiplexedPath_of experiment nm in
  let trimmedPath := trimmedPath_of experiment nm in
  let reg1 :=
    alist_set sample (<["demultiplexedPath" := demultiplexedPath]> s) reg in
  s1 <- lift (reg_get reg1 sample) ;;
  ret (alist_set sample (<["trimmedPath" := trimmedPath]> s1) reg1).

(** Lines 106-110: the body of the copy loop; [reads] is a local variable
    of [main] that the loop updates. *)
Definition normalize_reads (reads : string) : Outcome string :=
  match last_char reads with
  | None => Raise IndexError
  | Some c => Ok (if decide (c = "/"%char) then reads else reads +:+ "/")
  end.

Definition copy_body (reg : Registry) (reads : string) (sample : string)
  : M string :=
  reads' <- lift (normalize_reads reads) ;;
  let src := reads' +:+ sample +:+ ".fastq.gz" in
  s <- lift (reg_get reg sample) ;;
  dst <- lift (dict_get s "demultiplexedPath") ;;
  call (ECopyfile src dst) (copyfile C src dst) ;;;
  ret reads'.

(** Lines 126-143: the body of the per-sample loop; [geneMappings] is the
    local variable the loop updates. *)
Definition sample_body (experiment : string) (barcode_length : nat)
    (disruption : float) (reg : Registry) (geneMappings : GeneMappings)
    (sample : string) : M GeneMappings :=
  s <- lift (reg_get reg sample) ;;
  inp <- lift (dict_get s "demultiplexedPath") ;;
  out <- lift (dict_get s "trimmedPath") ;;
  call (ETrim inp out sample barcode_length)
       (trim_fastq C inp out sample barcode_length) ;;;
  let trimmedSampleFile := sample +:+ "_trimmed.fastq" in
  let bowtieOutputFile := sample +:+ "_bowtie.txt" in
  cd (genomeDir experiment)
     (let bowtie_in := "../" +:+ trimmedSampleFile in
      let bowtie_out := "../" +:+ bowtieOutputFile in
      call (EBowtieMap organism bowtie_in bowtie_out)
           (bowtieMap C organism bowtie_in bowtie_out)) ;;;
  out' <- lift (dict_get s "trimmedPath") ;;
  remove out' ;;;
  let sites := experiment +:+ "/" +:+ bowtieOutputFile in
  call (EMapSites sites) (mapSites C sites) ;;;
  r <- call (EMapGenes organism sample disruption experiment)
            (mapGenes C organism sample disruption experiment) ;;
  ret (alist_set sample r geneMappings).

Definition sample_loop (experiment : string) (barcode_length : nat)
    (disruption : float) (reg : Registry) (samples : list string)
    (geneMappings : GeneMappings) : M GeneMappings :=
  for_each samples (sample_body experiment barcode_length disruption reg)
    geneMappings.

(** Lines 102-113. *)
Definition stage_reads (nobarcodes : bool) (reads experiment : string)
    (reg : Registry) : M Registry :=
  if nobarcodes
  then for_each (keys reg) (copy_body reg) reads ;;; ret reg
  else call (EDemultiplex reads reg experiment)
            (demultiplex_fastq C reads reg experiment).

(** Lines 115-121. *)
Definition prepare_genome (gbkfile experiment : string) : M unit :=
  call (EGbk2fna gbkfile organism (genomeDir experiment))
       (gbk2fna C gbkfile organism (genomeDir experiment)) ;;;
  call (EGbk2ftt gbkfile organism (genomeDir experiment))
       (gbk2ftt C gbkfile organism (genomeDir experiment)) ;;;
  cd (genomeDir experiment)
     (call (EBowtieBuild organism) (bowtieBuild C organism)).

(** Lines 124-144, from the registry as the earlier stages left it. *)
Definition process_samples (experiment : string) (barcode_length : nat)
    (disruption : float) (reg : Registry) : M unit :=
  geneMappings <-
    sample_loop experiment barcode_length disruption reg (keys reg) [] ;;
  call (EBuildGeneTable organism reg geneMappings experiment)
       (buildGeneTable C organism reg geneMappings experiment).

(** Lines 63-121: everything before the per-sample loop.  The local
    variables the loop reads are returned. *)
Definition main_setup (argv : list OptOcc)
  : M (string * nat * float * Registry) :=
  args <- lift (parseArgs argv) ;;
  let gbkfile := a_genome args in
  experiment <- call (EConvertToFilename (a_experiment args))
                     (convert_to_filename C (a_experiment args)) ;;
  let reads := a_input args in
  let samples := a_samples args in
  disruption <- lift (py_float (float_of_str C) (a_disruption args)) ;;
  let nobarcodes := a_nobarcodes args in
  let '(barcode_qc, barcode_length) := barcode_settings nobarcodes in
  samplesDict <- call (ESamplePrep samples barcode_qc)
                      (sample_prep C samples barcode_qc) ;;
  call (ECreateDirs experiment) (createExperimentDirectories C experiment) ;;;
  samplesDict <-
    for_each (keys samplesDict) (attach_paths_body experiment) samplesDict ;;
  samplesDict <- stage_reads nobarcodes reads experiment samplesDict ;;
  prepare_genome gbkfile experiment ;;;
  ret (experiment, barcode_length, disruption, samplesDict).

Definition main (argv : list OptOcc) : M unit :=
  locals <- main_setup argv ;;
  let '(experiment, barcode_length, disruption, samplesDict) := locals in
  process_samples experiment barcode_length disruption samplesDict.

End Script.

(** ** A small concrete installation

    Stand-ins for the collaborators, used to run [main] on concrete
    command lines: two samples [A] and [B], files tracked by name only.
    [names] are the sample names the sample list holds, and [bad] the
    aligner inputs on which the aligner fails. *)
Module Demo.

(** The value of a decimal digit, [None] for any other character. *)
Definition digit_of (c : ascii) : option float :=
  let n := nat_of_ascii c in
  if bool_decide (48 <= n <= 57)
  then Some (Nat.iter (n - 48) (λ x, x + 1)%float 0%float)
  else None.

(** Reads digits up to the end or a dot; returns the number read, the
    power of ten of the digits read, and the rest after the dot. *)
Fixpoint digits (s : string) (acc scale : float) (n : nat)
  : option (float * float * nat * option string) :=
  match s with
  | EmptyString => Some (acc, scale, n, None)
  | String c s' =>
      if bool_decide (c = "."%char) then Some (acc, scale, n, Some s')
      else match digit_of c with
           | Some d => digits s' (10 * acc + d)%float (10 * scale)%float (S n)
           | None => None
           end
  end.

(** Plain decimal literals [ddd] and [ddd.ddd] with an optional minus
    sign; anything else is rejected. *)
Definition unsigned_float (s : string) : option float :=
  match digits s 0 1 0 with
  | Some (i, _, S _, None) => Some i
  | Some (i, _, S _, Some frac) =>
      match digits frac i 1 0 with
      | Some (m, scale, _, None) => Some (m / scale)%float
      | _ => None
      end
  | _ => None
  end.

Definition parse_float (s : string) : option float :=
  match s with
  | String "-" s' => PrimFloat.opp <$> unsigned_float s'
  | _ => unsigned_float s
  end.

Definition add_file (p : string) (os : OS) : OS :=
  mkOS (cwd os) (dirs os) ({[ resolve os p ]} ∪ files os).

Definition add_dir (p : string) (os : OS) : OS :=
  mkOS (cwd os) ({[ resolve os p ]} ∪ dirs os) (files os).

(** Succeeds when the input file exists and then creates the output. *)
Definition from_to (inp out : string) (os : OS) : Outcome unit * OS :=
  if decide (resolve os inp ∈ files os)
  then (Ok tt, add_file out os)
  else (Raise (FileNotFoundError inp), os).

Definition entry (name barcode : string) : string * SampleRec :=
  (name, {[ "name" := name; "barcode" := barcode ]}).

Definition registry_of (names : list string) : Registry :=
  (λ n, entry n (if decide (n = "A") then "ACGT" else "TTTT")) <$> names.

Definition demo (names bad : list string) : Collaborators := {|
  float_of_str := parse_float;
  expanduser := λ p, p;
  copyfile := from_to;
  convert_to_filename := λ e os, (Ok e, os);
  createExperimentDirectories := λ e os,
    (Ok tt, add_dir (e +:+ "/genome_lookup/") (add_dir (e +:+ "/raw_data")
              (add_dir e os)));
  sample_prep := λ samples qc os,
    if decide (resolve os samples ∈ files os)
    then (Ok (registry_of names), os)
    else (Raise (FileNotFoundError samples), os);
  demultiplex_fastq := λ reads reg e os,
    if decide (resolve os reads ∈ files os)
    then (Ok reg,
          foldr (λ k, add_file (e +:+ "/raw_data/" +:+ k +:+ ".fastq.gz"))
                os (keys reg))
    else (Raise (FileNotFoundError reads), os);
  trim_fastq := λ inp out sample bl, from_to inp out;
  gbk2fna := λ gbk org dir, from_to gbk (dir +:+ org +:+ ".fna");
  gbk2ftt := λ gbk org dir, from_to gbk (dir +:+ org +:+ ".ftt");
  bowtieBuild := λ org os, (Ok tt, os);
  bowtieMap := λ org bin bout os,
    if decide (bin ∈ bad)
    then (Raise (ExternalError "bowtie"), os)
    else (Ok tt, add_file bout os);
  mapSites := λ path os, (Ok tt, os);
  mapGenes := λ org sample d e os, (Ok [("gene1", d)], os);
  buildGeneTable := λ org reg gm e os,
    (Ok tt, add_file (e +:+ "/summary_gene_table.txt") os)
|}.

(** The machine before the run: the inputs are in [/work]. *)
Definition os0 : OS :=
  mkOS "/work" {[ "/work" ]}
       {[ "/work/reads.fastq.gz"; "/work/samples.txt"; "/work/genome.gbk";
          "/work/in/A.fastq.gz"; "/work/in/B.fastq.gz" ]}.

Definition w0 : World := mkWorld os0 [].

(** [-i reads.fastq.gz -s samples.txt -e exp -g genome.gbk] *)
Definition argv0 : list OptOcc :=
  [OInput "reads.fastq.gz"; OSamples "samples.txt"; OExperiment "exp";
   OGenome "genome.gbk"].

(** [-i <reads> -s samples.txt -e exp -g genome.gbk --nobarcodes] *)
Definition argv_nobarcodes (reads : string) : list OptOcc :=
  [OInput reads; OSamples "samples.txt"; OExperiment "exp";
   OGenome "genome.gbk"; ONoBarcodes].

(** Both samples, an aligner that works. *)
Definition two_samples : Collaborators := demo ["A"; "B"] [].

(** Both samples, an aligner that fails on the reads of sample [A]. *)
Definition aligner_fails_on_A : Collaborators :=
  demo ["A"; "B"] ["../A_trimmed.fastq"].

(** Both samples, an aligner that fails on the reads of sample [B]. *)
Definition aligner_fails_on_B : Collaborators :=
  demo ["A"; "B"] ["../B_trimmed.fastq"].


(** The registry and the machine when the per-sample loop is about to
    start, for the command line [argv0]. *)
Definition reg_ready (C : Collaborators) : Registry :=
  match fst (main_setup C argv0 w0) with
  | Ok (_, _, _, reg) => reg
  | Raise _ => []
  end.

Definition w_ready (C : Collaborators) : World := snd (main_setup C argv0 w0).

(** The machine once the experiment directories exist and the reads of
    sample [A] are trimmed. *)
Definition os1 : OS :=
  mkOS "/work" {[ "/work"; "/work/exp/genome_lookup" ]}
       {[ "/work/exp/A_trimmed.fastq" ]}.

Definition w1 : World := mkWorld os1 [].

End Demo.

(** ** The order of calls the script is written to make

    What [main] calls, as a function of the parsed arguments and of the
    registry; the theorems below relate the log of a run to it. *)
Section Schedule.

(** [samplesDict[sample][k]], the empty string when absent. *)
Definition field (reg : Registry) (sample k : string) : string :=
  default "" (alist_get sample reg ≫= (.!! k)).

(** The calls of one iteration of the per-sample loop. *)
Definition sample_steps (experiment : string) (barcode_length : nat)
    (disruption : float) (reg : Registry) (sample : string) : list Event :=
  [ ETrim (field reg sample "demultiplexedPath")
          (field reg sample "trimmedPath") sample barcode_length;
    EBowtieMap organism ("../" +:+ sample +:+ "_trimmed.fastq")
               ("../" +:+ sample +:+ "_bowtie.txt");
    ERemove (field reg sample "trimmedPath");
    EMapSites (experiment +:+ "/" +:+ sample +:+ "_bowtie.txt");
    EMapGenes organism sample disruption experiment ].

(** A sample entry with the two path fields of lines 93-100 added. *)
Definition attach_entry (experiment : string) (s : SampleRec) : SampleRec :=
  match s !! "name" with
  | Some nm =>
      <["trimmedPath" := trimmedPath_of experiment nm]>
        (<["demultiplexedPath" := demultiplexedPath_of experiment nm]> s)
  | None => s
  end.

(** [reg1] is [reg0] with the path fields added to every entry. *)
Definition attached (experiment : string) (reg0 reg1 : Registry) : Prop :=
  keys reg1 = keys reg0 /\
  forall k, alist_get k reg1 = attach_entry experiment <$> alist_get k reg0.

(** The reads directory with its trailing slash. *)
Definition with_slash (reads : string) : string :=
  if decide (last_char reads = Some "/"%char) then reads else reads +:+ "/".

Definition copy_steps (reads : string) (reg : Registry) : list Event :=
  (λ sample, ECopyfile (with_slash reads +:+ sample +:+ ".fastq.gz")
                       (field reg sample "demultiplexedPath")) <$> keys reg.

Definition staging_steps (nobarcodes : bool) (reads experiment : string)
    (reg : Registry) : list Event :=
  if nobarcodes then copy_steps reads reg
  else [EDemultiplex reads reg experiment].

Definition genome_steps (gbkfile experiment : string) : list Event :=
  [ EGbk2fna gbkfile organism (genomeDir experiment);
    EGbk2ftt gbkfile organism (genomeDir experiment);
    EBowtieBuild organism ].

Definition loop_steps (experiment : string) (barcode_length : nat)
    (disruption : float) (reg : Registry) : list Event :=
  keys reg ≫= sample_steps experiment barcode_length disruption reg.

(** Everything before the per-sample loop; [experiment] is the name that
    [convert_to_filename] returned and [reg1] the registry with the path
    fields added. *)
Definition setup_steps (a : Args) (experiment : string) (reg1 : Registry)
  : list Event :=
  let nobarcodes := a_nobarcodes a in
  [ EConvertToFilename (a_experiment a);
    ESamplePrep (a_samples a) (negb nobarcodes);
    ECreateDirs experiment ]
  ++ staging_steps nobarcodes (a_input a) experiment reg1
  ++ genome_steps (a_genome a) experiment.

(** The whole run: [reg2] is the registry as the staging of the reads
    left it, [gm] the gene-level results handed to the table builder. *)
Definition schedule (a : Args) (experiment : string) (disruption : float)
    (reg1 reg2 : Registry) (gm : GeneMappings) : list Event :=
  setup_steps a experiment reg1
  ++ loop_steps experiment (snd (barcode_settings (a_nobarcodes a)))
       disruption reg2
  ++ [EBuildGeneTable organism reg2 gm experiment].

End Schedule.

(** ** Reading the log *)

(** The calls that belong to the per-sample loop and the final table. *)
Definition is_sample_event (ev : Event) : bool :=
  match ev with
  | ETrim _ _ _ _ | EBowtieMap _ _ _ | ERemove _ | EMapSites _
  | EMapGenes _ _ _ _ | EBuildGeneTable _ _ _ _ => true
  | _ => false
  end.


(** The function an event is a call of. *)
Definition ev_tag (ev : Event) : string :=
  match ev with
  | EConvertToFilename _ => "convert_to_filename"
  | ESamplePrep _ _ => "sample_prep"
  | ECreateDirs _ => "createExperimentDirectories"
  | ECopyfile _ _ => "copyfile"
  | EDemultiplex _ _ _ => "demultiplex_fastq"
  | EGbk2fna _ _ _ => "gbk2fna"
  | EGbk2ftt _ _ _ => "gbk2ftt"
  | EBowtieBuild _ => "bowtieBuild"
  | ETrim _ _ _ _ => "trim_fastq"
  | EBowtieMap _ _ _ => "bowtieMap"
  | ERemove _ => "os.remove"
  | EMapSites _ => "mapSites"
  | EMapGenes _ _ _ _ => "mapGenes"
  | EBuildGeneTable _ _ _ _ => "buildGeneTable"
  end.




(** The sample and the disruption fraction of a call of [mapGenes]. *)
Definition gene_call (ev : Event) : option (string * float) :=
  match ev with
  | EMapGenes _ sample d _ => Some (sample, d)
  | _ => None
  end.

(** How many calls of the function [tag] a log holds. *)
Definition calls_of (tag : string) (t : list Event) : nat :=
  length (filter (λ ev, ev_tag ev = tag) t).

(** ** The files of the per-sample loop *)

(** The trimmed-read file of a sample, for a run started in directory [c]. *)
Definition trimmed_file (reg : Registry) (c : string) (sample : string)
  : string :=
  resolve_at c (field reg sample "trimmedPath").

Definition keeps_cwd {A} (f : OS -> Outcome A * OS) : Prop :=
  forall os, cwd (snd (f os)) = cwd os.

Definition creates_only {A} (out : string) (f : OS -> Outcome A * OS) : Prop :=
  forall os p, p ∈ files (snd (f os)) -> p ∈ files os \/ p = resolve os out.

Definition creates_none_of {A} (temps : list string)
    (f : OS -> Outcome A * OS) : Prop :=
  forall os p, p ∈ temps -> p ∈ files (snd (f os)) -> p ∈ files os.

(** Modelled from the spec: what the collaborators called in the
    per-sample loop, which are not among the sources, do to the files.  The
    trimmer writes its output path (section 4.3); the aligner, the site
    mapper and the gene mapper write their own reports (sections 4.4, 4.5
    and 6) and none of the trimmed-read files [temps]; only the aligner is
    run in another directory. *)
Record tidy (C : Collaborators) (experiment : string) (barcode_length : nat)
    (disruption : float) (temps : list string) : Prop := mkTidy {
  tidy_trim : forall inp out sample,
    keeps_cwd (trim_fastq C inp out sample barcode_length) /\
    creates_only out (trim_fastq C inp out sample barcode_length);
  tidy_align : forall sample,
    creates_none_of temps
      (bowtieMap C organism ("../" +:+ sample +:+ "_trimmed.fastq")
         ("../" +:+ sample +:+ "_bowtie.txt"));
  tidy_sites : forall path,
    keeps_cwd (mapSites C path) /\ creates_none_of temps (mapSites C path);
  tidy_genes : forall sample,
    keeps_cwd (mapGenes C organism sample disruption experiment) /\
    creates_none_of temps (mapGenes C organism sample disruption experiment)
}.

(** Modelled from the spec: [sample_prep] of module [demultiplex], which is
    not among the sources.  Section 4.1: [load(sample_list,
    validate_barcodes)] returns the ordered mapping of sample name to
    sample read from the sample list, or fails on a malformed line and,
    when asked to validate, on a barcode that does not pass; "Side effect:
    none beyond returning the in-memory mapping".  An entry holds the name
    and the barcode of its sample, as the comment at lines 84-85 of the
    script shows.  [read_samples] is the reading and checking of the
    lines, which is left open. *)
Definition sample_prep_spec
    (read_samples : string -> bool -> OS -> Outcome (list (string * string)))
    (samples : string) (barcode_qc : bool) (os : OS) : Outcome Registry * OS :=
  match read_samples samples barcode_qc os with
  | Ok entries =>
      (Ok ((λ nb : string * string,
              (nb.1, ({[ "name" := nb.1; "barcode" := nb.2 ]} : SampleRec)))
           <$> entries), os)
  | Raise x => (Raise x, os)
  end.

(** ** How far a run has come *)

(** [reaches_staging C argv w a e d reg0 reg1 w2]: started in [w] on the
    command line [argv], [main] has come to line 102 in [w2].  [a] are the
    parsed arguments, [e] is the experiment name that [convert_to_filename]
    returned, [d] the disruption fraction, [reg0] the registry that
    [sample_prep] returned and [reg1] that registry once the loop of lines
    92-100 has added the path fields. *)
Definition reaches_staging (C : Collaborators) (argv : list OptOcc)
    (w : World) (a : Args) (e : string) (d : float) (reg0 reg1 : Registry)
    (w2 : World) : Prop :=
  exists os0 os1 os2,
    parseArgs argv = Ok a /\
    convert_to_filename C (a_experiment a) (w_os w) = (Ok e, os0) /\
    py_float (float_of_str C) (a_disruption a) = Ok d /\
    sample_prep C (a_samples a) (negb (a_nobarcodes a)) os0 = (Ok reg0, os1) /\
    createExperimentDirectories C e os1 = (Ok tt, os2) /\
    w2 = mkWorld os2
           (w_log w ++ [EConvertToFilename (a_experiment a);
                        ESamplePrep (a_samples a) (negb (a_nobarcodes a));
                        ECreateDirs e]) /\
    for_each (keys reg0) (attach_paths_body e) reg0 w2 = (Ok reg1, w2).

(** [reaches_loop C argv w a e d reg0 reg1 reg w1]: [main] has come to
    line 124 in [w1]; [reg] is the registry as the staging of the reads
    left it, the value of [samplesDict] that the per-sample loop and the
    table builder read. *)
Definition reaches_loop (C : Collaborators) (argv : list OptOcc)
    (w : World) (a : Args) (e : string) (d : float)
    (reg0 reg1 reg : Registry) (w1 : World) : Prop :=
  exists w2 w3,
    reaches_staging C argv w a e d reg0 reg1 w2 /\
    stage_reads C (a_nobarcodes a) (a_input a) e reg1 w2 = (Ok reg, w3) /\
    prepare_genome C (a_genome a) e w3 = (Ok tt, w1).

(** [0.0 <= x <= 1.0] *)
Definition in_unit_interval (x : float) : bool :=
  (PrimFloat.leb 0 x && PrimFloat.leb x 1)%float.

(** ** More stand-ins for concrete runs *)
Module DemoMore.

(** A sample list whose only entry has a barcode and no name. *)
Definition nameless_registry : Registry :=
  [("A", {[ "barcode" := "ACGT" ]})].

Definition nameless : Collaborators :=
  let D := Demo.two_samples in
  mkCollaborators (float_of_str D) (expanduser D) (copyfile D)
    (convert_to_filename D) (createExperimentDirectories D)
    (λ samples qc os, (Ok nameless_registry, os))
    (demultiplex_fastq D) (trim_fastq D) (gbk2fna D) (gbk2ftt D)
    (bowtieBuild D) (bowtieMap D) (mapSites D) (mapGenes D)
    (buildGeneTable D).

(** A machine with no file and one directory. *)
Definition bare : World := mkWorld (mkOS "/work" {[ "/work" ]} ∅) [].



(** The sample list as a list of names and barcodes, when the file is
    there. *)
Definition read_two (samples : string) (barcode_qc : bool) (os : OS)
  : Outcome (list (string * string)) :=
  if decide (resolve os samples ∈ files os)
  then Ok [("A", "ACGT"); ("B", "TTTT")]
  else Raise (FileNotFoundError samples).

(** The installation of [Demo.two_samples] with the sample list loaded as
    [sample_prep_spec] says. *)
Definition spec_loader : Collaborators :=
  let D := Demo.two_samples in
  mkCollaborators (float_of_str D) (expanduser D) (copyfile D)
    (convert_to_filename D) (createExperimentDirectories D)
    (sample_prep_spec read_two)
    (demultiplex_fastq D) (trim_fastq D) (gbk2fna D) (gbk2ftt D)
    (bowtieBuild D) (bowtieMap D) (mapSites D) (mapGenes D)
    (buildGeneTable D).

(** A block body that returns 7 after the directory [/work] has been
    removed from under the process. *)
Definition pulls_the_rug : M nat := fun w =>
  (Ok 7, mkWorld (mkOS (cwd (w_os w)) (dirs (w_os w) ∖ {[ "/work" ]})
                       (files (w_os w))) (w_log w)).

End DemoMore.

(** * Properties *)

(** ** The monad and the log *)

Lemma bind_ok_inv {A B} (m : M A) (k : A -> M B) w b w' :
  bind m k w = (Ok b, w') ->
  exists a w1, m w = (Ok a, w1) /\ k a w1 = (Ok b, w').
Proof.
  unfold bind. destruct (m w) as [[a|e] w1]; intros H; [eauto|discriminate].
Qed.

Lemma bind_inv {A B} (m : M A) (k : A -> M B) w r w' :
  bind m k w = (r, w') ->
  (exists e, m w = (Raise e, w') /\ r = Raise e) \/
  (exists a w1, m w = (Ok a, w1) /\ k a w1 = (r, w')).
Proof.
  unfold bind. destruct (m w) as [[a|e] w1]; intros H.
  - right; eauto.
  - left. inversion H; subst. eauto.
Qed.

Lemma lift_inv {A} (o : Outcome A) w r w' :
  lift o w = (r, w') -> r = o /\ w' = w.
Proof. unfold lift. intros H; inversion H; auto. Qed.

Lemma call_inv {A} ev (f : OS -> Outcome A * OS) w r w' :
  call ev f w = (r, w') ->
  f (w_os w) = (r, w_os w') /\ w_log w' = w_log w ++ [ev].
Proof.
  unfold call. destruct (f (w_os w)) as [r1 os1]. intros H.
  inversion H; subst; auto.
Qed.

Lemma chdir_inv p w r w' :
  chdir p w = (r, w') ->
  os_chdir p (w_os w) = (r, w_os w') /\ w_log w' = w_log w.
Proof.
  unfold chdir. destruct (os_chdir p (w_os w)) as [r1 os1]. intros H.
  inversion H; subst; auto.
Qed.

(** What a [with cd(...)] block does, case by case. *)
Lemma cd_inv (C : Collaborators) {A} newPath (body : M A) w r w' :
  cd C newPath body w = (r, w') ->
  (exists e, chdir (expanduser C newPath) w = (Raise e, w') /\ r = Raise e) \/
  (exists w1 rb w2,
      chdir (expanduser C newPath) w = (Ok tt, w1) /\
      body w1 = (rb, w2) /\
      ((exists e, chdir (cwd (w_os w)) w2 = (Raise e, w') /\ r = Raise e) \/
       (chdir (cwd (w_os w)) w2 = (Ok tt, w') /\ r = rb))).
Proof.
  unfold cd. destruct (chdir (expanduser C newPath) w) as [[[]|e] w1] eqn:E1.
  - destruct (body w1) as [rb w2] eqn:E2.
    destruct (chdir (cwd (w_os w)) w2) as [[[]|e] w3] eqn:E3;
      intros H; inversion H; subst; right; eexists _, _, _;
      (split; [reflexivity|split; [eassumption|eauto]]).
  - intros H; inversion H; subst. left; eauto.
Qed.

(** The log of a block that makes one call inside [with cd(...)]. *)
Lemma cd_call_log (C : Collaborators) {A} newPath ev
    (f : OS -> Outcome A * OS) w r w' :
  cd C newPath (call ev f) w = (r, w') ->
  (w_log w' = w_log w /\ is_ok r = false) \/ w_log w' = w_log w ++ [ev].
Proof.
  intros H. apply cd_inv in H as [(e & H1 & ->)|(w1 & rb & w2 & H1 & H2 & H3)].
  - apply chdir_inv in H1 as [_ ?]. auto.
  - apply chdir_inv in H1 as [_ L1]. apply call_inv in H2 as [_ L2].
    right. destruct H3 as [(e & H3 & _)|[H3 _]];
      apply chdir_inv in H3 as [_ L3]; congruence.
Qed.

(** ** The per-sample loop *)

Section Loop.

Context (C : Collaborators).

Lemma field_get reg sample s k v :
  reg_get reg sample = Ok s -> dict_get s k = Ok v -> field reg sample k = v.
Proof.
  unfold reg_get, dict_get, field.
  destruct (alist_get sample reg) as [s'|]; [|discriminate].
  intros [= ->]. simpl. destruct (s !! k); [|discriminate].
  by intros [= ->].
Qed.

(** One iteration makes the calls of [sample_steps], in that order, and
    stops at the first that raises. *)
Lemma sample_body_log e bl d reg gm sample w r w' :
  sample_body C e bl d reg gm sample w = (r, w') ->
  exists t, w_log w' = w_log w ++ t /\
    t `prefix_of` sample_steps e bl d reg sample /\
    (is_ok r = true -> t = sample_steps e bl d reg sample).
Proof.
  unfold sample_body. intros H.
  apply bind_inv in H as [(x & H & ->)|(s & w1 & Hs & H)].
  { apply lift_inv in H as [_ ->]. exists []. rewrite app_nil_r.
    split_and!; [done|apply prefix_nil|done]. }
  apply lift_inv in Hs as [Hs ->]. symmetry in Hs.
  apply bind_inv in H as [(x & H & ->)|(inp & w1 & Hi & H)].
  { apply lift_inv in H as [_ ->]. exists []. rewrite app_nil_r.
    split_and!; [done|apply prefix_nil|done]. }
  apply lift_inv in Hi as [Hi ->]. symmetry in Hi.
  apply bind_inv in H as [(x & H & ->)|(out & w1 & Ho & H)].
  { apply lift_inv in H as [_ ->]. exists []. rewrite app_nil_r.
    split_and!; [done|apply prefix_nil|done]. }
  apply lift_inv in Ho as [Ho ->]. symmetry in Ho.
  unfold sample_steps.
  rewrite (field_get _ _ _ _ _ Hs Hi), (field_get _ _ _ _ _ Hs Ho).
  apply bind_inv in H as [(x & H & ->)|([] & w1 & H1 & H)].
  { apply call_inv in H as [_ L]. eexists [_]. split_and!; [done| |done].
    by eexists. }
  apply call_inv in H1 as [_ L1].
  apply bind_inv in H as [(x & H & ->)|([] & w2 & H2 & H)].
  { apply cd_call_log in H as [[L _]|L]; rewrite L, L1.
    - eexists [_]. split_and!; [done| |done]. by eexists.
    - rewrite <-app_assoc. eexists [_; _]. split_and!; [done| |done].
      by eexists. }
  apply cd_call_log in H2 as [[_ ?]|L2]; [done|].
  apply bind_inv in H as [(x & H & ->)|(out' & w3 & Ho' & H)].
  { apply lift_inv in H as [_ ->]. rewrite L2, L1, <-app_assoc.
    eexists [_; _]. split_and!; [done| |done]. by eexists. }
  apply lift_inv in Ho' as [Ho' ->]. rewrite Ho in Ho'.
  injection Ho' as <-.
  apply bind_inv in H as [(x & H & ->)|([] & w3 & H3 & H)].
  { apply call_inv in H as [_ L]. rewrite L, L2, L1, <-!app_assoc.
    eexists [_; _; _]. split_and!; [done| |done]. by eexists. }
  apply call_inv in H3 as [_ L3].
  apply bind_inv in H as [(x & H & ->)|([] & w4 & H4 & H)].
  { apply call_inv in H as [_ L]. rewrite L, L3, L2, L1, <-!app_assoc.
    eexists [_; _; _; _]. split_and!; [done| |done]. by eexists. }
  apply call_inv in H4 as [_ L4].
  apply bind_inv in H as [(x & H & ->)|(g & w5 & H5 & H)].
  { apply call_inv in H as [_ L]. rewrite L, L4, L3, L2, L1, <-!app_assoc.
    eexists [_; _; _; _; _]. split_and!; [done|done|done]. }
  apply call_inv in H5 as [_ L5]. inversion H; subst.
  rewrite L5, L4, L3, L2, L1, <-!app_assoc.
  eexists [_; _; _; _; _]. split_and!; done.
Qed.

End Loop.

(** ** Ordered dictionaries *)

Lemma alist_get_set_eq {V} k (v : V) d :
  alist_get k (alist_set k v d) = Some v.
Proof.
  induction d as [|[k' v'] d IH]; simpl.
  - by rewrite decide_True.
  - destruct (decide (k = k')) as [->|Hne]; simpl.
    + by rewrite decide_True.
    + by rewrite decide_False.
Qed.

Lemma alist_get_set_ne {V} k k0 (v : V) d :
  k0 <> k -> alist_get k0 (alist_set k v d) = alist_get k0 d.
Proof.
  intros Hne. induction d as [|[k' v'] d IH]; simpl.
  - by rewrite decide_False.
  - destruct (decide (k = k')) as [->|Hne']; simpl.
    + by rewrite !decide_False.
    + destruct (decide (k0 = k')); auto.
Qed.

Lemma keys_alist_set_present {V} k (v : V) d :
  is_Some (alist_get k d) -> keys (alist_set k v d) = keys d.
Proof.
  induction d as [|[k' v'] d IH]; simpl.
  - by intros [? ?].
  - destruct (decide (k = k')) as [->|Hne]; simpl; [done|].
    intros H. unfold keys in *. simpl. by rewrite IH.
Qed.

Lemma alist_get_None {V} k (d : list (string * V)) :
  k ∉ keys d -> alist_get k d = None.
Proof.
  induction d as [|[k' v'] d IH]; simpl; [done|].
  rewrite not_elem_of_cons. intros [Hne Hni].
  rewrite decide_False by done. auto.
Qed.


(** ** Loops *)

(** A loop whose body makes the calls [steps x] makes the calls of its
    items in order; [I] is an invariant of the local variables. *)
Lemma for_each_log {A S} (I : S -> Prop) (body : S -> A -> M S)
    (steps : A -> list Event) :
  (forall acc x w r w', I acc -> body acc x w = (r, w') ->
     exists t, w_log w' = w_log w ++ t /\ t `prefix_of` steps x /\
       (forall acc', r = Ok acc' -> t = steps x /\ I acc')) ->
  forall xs acc w r w', I acc -> for_each xs body acc w = (r, w') ->
     exists t, w_log w' = w_log w ++ t /\ t `prefix_of` (xs ≫= steps) /\
       (forall acc', r = Ok acc' -> t = xs ≫= steps /\ I acc').
Proof.
  intros Hbody xs. induction xs as [|x xs IH]; intros acc w r w' HI H.
  - inversion H; subst. exists []. rewrite app_nil_r.
    split_and!; [done|done|]. by intros ? [= <-].
  - simpl in H. apply bind_inv in H as [(e & H & ->)|(acc1 & w1 & H1 & H)].
    + destruct (Hbody _ _ _ _ _ HI H) as (t & L & P & _).
      exists t. split_and!; [done| |done].
      rewrite bind_cons. by apply prefix_app_r.
    + destruct (Hbody _ _ _ _ _ HI H1) as (t1 & L1 & _ & E1).
      destruct (E1 _ eq_refl) as [-> HI1].
      destruct (IH _ _ _ _ HI1 H) as (t2 & L2 & P2 & E2).
      exists (steps x ++ t2). rewrite bind_cons. split_and!.
      * by rewrite L2, L1, app_assoc.
      * by apply prefix_app.
      * intros acc' ->. destruct (E2 _ eq_refl) as [-> ?]. done.
Qed.

(** ** Adding the path fields (lines 92-100) *)

Lemma attach_entry_idemp e s :
  attach_entry e (attach_entry e s) = attach_entry e s.
Proof.
  unfold attach_entry. destruct (s !! "name") as [nm|] eqn:E.
  - do 2 (rewrite lookup_insert_ne by done). rewrite E.
    apply map_eq. intros i.
    destruct (decide (i = "trimmedPath")) as [->|];
      [by rewrite !lookup_insert_eq|].
    rewrite !(lookup_insert_ne _ "trimmedPath") by done.
    destruct (decide (i = "demultiplexedPath")) as [->|];
      [by rewrite !lookup_insert_eq|].
    by rewrite ?lookup_insert_ne by done.
  - by rewrite E.
Qed.

Lemma attach_paths_body_spec e reg sample w r w' :
  attach_paths_body e reg sample w = (r, w') ->
  w' = w /\
  forall reg', r = Ok reg' ->
    keys reg' = keys reg /\
    alist_get sample reg' = attach_entry e <$> alist_get sample reg /\
    forall k, k <> sample -> alist_get k reg' = alist_get k reg.
Proof.
  unfold attach_paths_body, reg_get, dict_get. intros H.
  apply bind_inv in H as [(x & H & ->)|(s & w1 & Hs & H)].
  { apply lift_inv in H as [_ ->]. done. }
  apply lift_inv in Hs as [Hs ->].
  destruct (alist_get sample reg) as [s0|] eqn:Es; [|done].
  injection Hs as ->.
  apply bind_inv in H as [(x & H & ->)|(nm & w1 & Hn & H)].
  { apply lift_inv in H as [_ ->]. done. }
  apply lift_inv in Hn as [Hn ->].
  destruct (s0 !! "name") as [nm0|] eqn:En; [|done].
  injection Hn as ->.
  rewrite alist_get_set_eq in H.
  apply bind_inv in H as [(x & H & ->)|(s1 & w1 & H1 & H)].
  { apply lift_inv in H as [? _]. done. }
  apply lift_inv in H1 as [[= ->] ->]. inversion H; subst.
  split; [done|]. intros reg' [= <-]. split_and!.
  - rewrite !keys_alist_set_present; [done| |].
    + by rewrite Es.
    + by rewrite alist_get_set_eq.
  - rewrite alist_get_set_eq. simpl. unfold attach_entry. by rewrite En.
  - intros k Hk. by rewrite !alist_get_set_ne.
Qed.

Lemma attach_loop_spec e ks reg w r w' :
  for_each ks (attach_paths_body e) reg w = (r, w') ->
  w' = w /\
  forall reg', r = Ok reg' ->
    keys reg' = keys reg /\
    forall k, alist_get k reg' =
      if decide (k ∈ ks) then attach_entry e <$> alist_get k reg
      else alist_get k reg.
Proof.
  revert reg w r w'. induction ks as [|x ks IH]; intros reg w r w' H.
  - inversion H; subst. split; [done|]. intros ? [= <-]. split; [done|].
    intros k. by rewrite decide_False by apply not_elem_of_nil.
  - simpl in H. apply bind_inv in H as [(x0 & H & ->)|(reg1 & w1 & H1 & H)].
    { apply attach_paths_body_spec in H as [-> _]. done. }
    apply attach_paths_body_spec in H1 as [-> H1].
    destruct (H1 _ eq_refl) as (K1 & G1 & O1).
    apply IH in H as [-> H]. split; [done|]. intros reg' ->.
    destruct (H _ eq_refl) as (K2 & G2). split; [congruence|].
    intros k. rewrite G2. destruct (decide (k = x)) as [->|Hne].
    + rewrite (decide_True (P := x ∈ x :: ks)) by (apply elem_of_cons; auto).
      rewrite G1. destruct (decide (x ∈ ks)); [|done].
      destruct (alist_get x reg); simpl; [|done].
      by rewrite attach_entry_idemp.
    + rewrite O1 by done.
      destruct (decide (k ∈ ks)) as [Hin|Hni].
      * by rewrite decide_True by (apply elem_of_cons; auto).
      * rewrite decide_False; [done|].
        rewrite elem_of_cons. by intros [?|?].
Qed.

(** The loop over the whole registry adds the path fields to every entry,
    and touches neither the log nor the operating system. *)
Lemma attach_all_spec e reg w r w' :
  for_each (keys reg) (attach_paths_body e) reg w = (r, w') ->
  w' = w /\ forall reg', r = Ok reg' -> attached e reg reg'.
Proof.
  intros H. apply attach_loop_spec in H as [-> H]. split; [done|].
  intros reg' ->. destruct (H _ eq_refl) as [K G]. split; [done|].
  intros k. rewrite G. destruct (decide (k ∈ keys reg)) as [|Hni]; [done|].
  by rewrite alist_get_None.
Qed.

Lemma alist_get_Some_keys {V} k (v : V) (d : list (string * V)) :
  alist_get k d = Some v -> k ∈ keys d.
Proof.
  induction d as [|[k' v'] d IH]; simpl; [done|].
  destruct (decide (k = k')) as [->|Hne]; intros H.
  - apply elem_of_cons. auto.
  - apply elem_of_cons. right. auto.
Qed.

Lemma alist_get_keys_Some {V} k (d : list (string * V)) :
  k ∈ keys d -> is_Some (alist_get k d).
Proof.
  induction d as [|[k' v'] d IH]; simpl.
  - intros H. destruct (proj1 (elem_of_nil _) H).
  - destruct (decide (k = k')); [eauto|].
    intros [?|?]%elem_of_cons; [done|auto].
Qed.

Lemma attach_paths_body_name e reg sample w reg' w' :
  attach_paths_body e reg sample w = (Ok reg', w') ->
  exists s nm, alist_get sample reg = Some s /\ s !! "name" = Some nm.
Proof.
  unfold attach_paths_body, reg_get, dict_get. intros H.
  apply bind_ok_inv in H as (s & w1 & Hs & H).
  apply lift_inv in Hs as [Hs ->].
  destruct (alist_get sample reg) as [s0|]; [|done]. injection Hs as ->.
  apply bind_ok_inv in H as (nm & w1 & Hn & _).
  apply lift_inv in Hn as [Hn ->].
  destruct (s0 !! "name") as [nm0|] eqn:En; [|done]. eauto.
Qed.

Lemma attach_loop_names e ks reg w reg' w' :
  for_each ks (attach_paths_body e) reg w = (Ok reg', w') ->
  forall k, k ∈ ks ->
    exists s nm, alist_get k reg = Some s /\ s !! "name" = Some nm.
Proof.
  revert reg w. induction ks as [|x ks IH]; intros reg w H k Hk.
  - destruct (proj1 (elem_of_nil _) Hk).
  - simpl in H. apply bind_ok_inv in H as (reg1 & w1 & H1 & H).
    pose proof (attach_paths_body_name _ _ _ _ _ _ H1) as (sx & nx & Sx & Nx).
    destruct (decide (k = x)) as [->|Hne]; [eauto|].
    apply elem_of_cons in Hk as [?|Hk]; [done|].
    destruct (IH _ _ H k Hk) as (s & nm & Hs & Hn).
    apply attach_paths_body_spec in H1 as [_ Hspec].
    destruct (Hspec _ eq_refl) as (_ & _ & Go).
    rewrite Go in Hs by done. eauto.
Qed.

(** The path fields that the loop of lines 92-100 gives an entry. *)
Lemma attach_loop_fields e (reg : Registry) w reg' w' k s :
  for_each (keys reg) (attach_paths_body e) reg w = (Ok reg', w') ->
  alist_get k reg = Some s ->
  exists nm, s !! "name" = Some nm /\
    field reg' k "demultiplexedPath" = demultiplexedPath_of e nm /\
    field reg' k "trimmedPath" = trimmedPath_of e nm.
Proof.
  intros H Hs. pose proof (attach_loop_names _ _ _ _ _ _ H) as Hnames.
  apply attach_all_spec in H as [_ Hatt].
  destruct (Hatt _ eq_refl) as [_ Hg].
  destruct (Hnames k (alist_get_Some_keys _ _ _ Hs)) as (s0 & nm & Hs0 & Hn).
  rewrite Hs in Hs0. injection Hs0 as <-. exists nm. split; [done|].
  unfold field. rewrite Hg, Hs. simpl. unfold attach_entry. rewrite Hn. split.
  - rewrite lookup_insert_ne by done. by rewrite lookup_insert_eq.
  - by rewrite lookup_insert_eq.
Qed.

(** ** The reads directory (lines 106-107) *)

Lemma last_char_app_slash s : last_char (s +:+ "/") = Some "/"%char.
Proof.
  induction s as [|c s IH]; [done|].
  simpl. destruct (s +:+ "/") eqn:E; [|done].
  by destruct s.
Qed.

Lemma normalize_reads_ok reads r :
  normalize_reads reads = Ok r -> r = with_slash reads.
Proof.
  unfold normalize_reads, with_slash.
  destruct (last_char reads) as [c|]; [|done]. intros [= <-].
  destruct (decide (c = "/"%char)) as [->|Hne].
  - by rewrite decide_True.
  - rewrite decide_False; [done|]. by intros [= ?].
Qed.

Lemma with_slash_idemp reads : with_slash (with_slash reads) = with_slash reads.
Proof.
  unfold with_slash at 2 3.
  destruct (decide (last_char reads = Some "/"%char)) as [E|E].
  - unfold with_slash. by rewrite decide_True.
  - unfold with_slash. by rewrite decide_True by apply last_char_app_slash.
Qed.



(** ** The log of each stage of [main] *)

Section Stages.

Context (C : Collaborators).

Lemma bind_singleton {A B} (f : A -> B) (xs : list A) :
  xs ≫= (λ x, [f x]) = f <$> xs.
Proof. induction xs as [|x xs IH]; [done|]. rewrite bind_cons, IH. done. Qed.

Lemma copy_body_log reg reads0 acc sample w r w' :
  with_slash acc = with_slash reads0 ->
  copy_body C reg acc sample w = (r, w') ->
  exists t, w_log w' = w_log w ++ t /\
    t `prefix_of` [ECopyfile (with_slash reads0 +:+ sample +:+ ".fastq.gz")
                             (field reg sample "demultiplexedPath")] /\
    (forall acc', r = Ok acc' ->
       t = [ECopyfile (with_slash reads0 +:+ sample +:+ ".fastq.gz")
                      (field reg sample "demultiplexedPath")] /\
       with_slash acc' = with_slash reads0).
Proof.
  unfold copy_body. intros HI H.
  apply bind_inv in H as [(x & H & ->)|(reads' & w1 & Hn & H)].
  { apply lift_inv in H as [_ ->]. exists []. rewrite app_nil_r.
    split_and!; [done|apply prefix_nil|done]. }
  apply lift_inv in Hn as [Hn ->]. symmetry in Hn.
  apply normalize_reads_ok in Hn as ->. rewrite HI in H.
  apply bind_inv in H as [(x & H & ->)|(s & w1 & Hs & H)].
  { apply lift_inv in H as [_ ->]. exists []. rewrite app_nil_r.
    split_and!; [done|apply prefix_nil|done]. }
  apply lift_inv in Hs as [Hs ->]. symmetry in Hs.
  apply bind_inv in H as [(x & H & ->)|(dst & w1 & Hd & H)].
  { apply lift_inv in H as [_ ->]. exists []. rewrite app_nil_r.
    split_and!; [done|apply prefix_nil|done]. }
  apply lift_inv in Hd as [Hd ->]. symmetry in Hd.
  rewrite (field_get _ _ _ _ _ Hs Hd).
  apply bind_inv in H as [(x & H & ->)|([] & w1 & H1 & H)].
  { apply call_inv in H as [_ L]. eexists [_]. done. }
  apply call_inv in H1 as [_ L1]. inversion H; subst.
  eexists [_]. split_and!; [done|done|].
  intros ? [= <-]. by rewrite with_slash_idemp.
Qed.

Lemma stage_reads_log nobarcodes reads e reg w r w' :
  stage_reads C nobarcodes reads e reg w = (r, w') ->
  exists t, w_log w' = w_log w ++ t /\
    t `prefix_of` staging_steps nobarcodes reads e reg /\
    (forall reg2, r = Ok reg2 ->
       t = staging_steps nobarcodes reads e reg /\
       (nobarcodes = true -> reg2 = reg)).
Proof.
  unfold stage_reads, staging_steps. destruct nobarcodes; intros H.
  - unfold copy_steps. rewrite <-bind_singleton.
    apply bind_inv in H as [(x & H & ->)|(reads' & w1 & H1 & H)].
    + eapply (for_each_log (λ acc, with_slash acc = with_slash reads)) in H
        as (t & L & P & _); [|intros; by eapply copy_body_log|done].
      exists t. done.
    + eapply (for_each_log (λ acc, with_slash acc = with_slash reads)) in H1
        as (t & L & P & E); [|intros; by eapply copy_body_log|done].
      inversion H; subst. destruct (E _ eq_refl) as [-> _].
      eexists. split_and!; [done|done|]. by intros ? [= <-].
  - apply call_inv in H as [_ L]. eexists [_]. split_and!; [done|done|].
    done.
Qed.

Lemma prepare_genome_log gbk e w r w' :
  prepare_genome C gbk e w = (r, w') ->
  exists t, w_log w' = w_log w ++ t /\
    t `prefix_of` genome_steps gbk e /\
    (is_ok r = true -> t = genome_steps gbk e).
Proof.
  unfold prepare_genome, genome_steps. intros H.
  apply bind_inv in H as [(x & H & ->)|([] & w1 & H1 & H)].
  { apply call_inv in H as [_ L]. eexists [_]. split_and!; [done| |done].
    by eexists. }
  apply call_inv in H1 as [_ L1].
  apply bind_inv in H as [(x & H & ->)|([] & w2 & H2 & H)].
  { apply call_inv in H as [_ L]. rewrite L, L1, <-app_assoc.
    eexists [_; _]. split_and!; [done| |done]. by eexists. }
  apply call_inv in H2 as [_ L2].
  destruct r as [[]|x].
  - apply cd_call_log in H as [[_ ?]|L]; [done|].
    rewrite L, L2, L1, <-!app_assoc. eexists [_; _; _]. done.
  - apply cd_call_log in H as [[L _]|L]; rewrite L, L2, L1, <-!app_assoc.
    + eexists [_; _]. split_and!; [done| |done]. by eexists.
    + eexists [_; _; _]. done.
Qed.

Lemma sample_loop_log e bl d reg samples gm w r w' :
  sample_loop C e bl d reg samples gm w = (r, w') ->
  exists t, w_log w' = w_log w ++ t /\
    t `prefix_of` (samples ≫= sample_steps e bl d reg) /\
    (is_ok r = true -> t = samples ≫= sample_steps e bl d reg).
Proof.
  unfold sample_loop. intros H.
  eapply (for_each_log (λ _, True)) in H as (t & L & P & E); [| |done].
  - exists t. split_and!; [done|done|]. destruct r; [|done].
    intros _. by destruct (E _ eq_refl).
  - intros acc x w0 r0 w0' _ H0.
    apply sample_body_log in H0 as (t & L & P & E).
    exists t. split_and!; [done|done|]. intros ? ->. split; [|done]. by apply E.
Qed.

Lemma process_samples_log e bl d reg w r w' :
  process_samples C e bl d reg w = (r, w') ->
  exists t gm, w_log w' = w_log w ++ t /\
    t `prefix_of` loop_steps e bl d reg ++ [EBuildGeneTable organism reg gm e] /\
    (is_ok r = true ->
       t = loop_steps e bl d reg ++ [EBuildGeneTable organism reg gm e]).
Proof.
  unfold process_samples, loop_steps. intros H.
  apply bind_inv in H as [(x & H & ->)|(gm & w1 & H1 & H)].
  - apply sample_loop_log in H as (t & L & P & _). exists t, [].
    split_and!; [done| |done]. by apply prefix_app_r.
  - apply sample_loop_log in H1 as (t & L & _ & E). rewrite E in L by done.
    apply call_inv in H as [_ L2]. eexists _, gm.
    rewrite L2, L, <-app_assoc. done.
Qed.

End Stages.

(** ** The run as a whole *)

Lemma barcode_settings_fst nb : fst (barcode_settings nb) = negb nb.
Proof. by destruct nb. Qed.


Section Run.

Context (C : Collaborators).

(** When line 102 is reached the three calls of lines 65, 86 and 89 have
    been made, and the registry holds the path fields. *)
Lemma reaches_staging_log argv w a e d reg0 reg1 w2 :
  reaches_staging C argv w a e d reg0 reg1 w2 ->
  w_log w2 = w_log w ++ [EConvertToFilename (a_experiment a);
                         ESamplePrep (a_samples a) (negb (a_nobarcodes a));
                         ECreateDirs e] /\
  attached e reg0 reg1.
Proof.
  intros (os0 & os1 & os2 & _ & _ & _ & _ & _ & E & Hatt).
  split; [by rewrite E|].
  apply attach_all_spec in Hatt as [_ Hatt]. by apply Hatt.
Qed.

(** Lines 63-121, case by case: either [main] stops before line 102, with
    at most the first three calls made, or it reaches line 102 and goes on
    with the staging of the reads and the genome files. *)
Lemma main_setup_inv argv w r w1 :
  main_setup C argv w = (r, w1) ->
  (exists x t, r = Raise x /\ w_log w1 = w_log w ++ t /\
     match parseArgs argv with
     | Raise y => x = y /\ w1 = w
     | Ok a =>
         exists e, t `prefix_of`
           [EConvertToFilename (a_experiment a);
            ESamplePrep (a_samples a) (negb (a_nobarcodes a));
            ECreateDirs e]
     end) \/
  (exists a e d reg0 reg1 w2 t,
     reaches_staging C argv w a e d reg0 reg1 w2 /\
     w_log w1 = w_log w2 ++ t /\
     t `prefix_of` staging_steps (a_nobarcodes a) (a_input a) e reg1
                     ++ genome_steps (a_genome a) e /\
     forall x, r = Ok x ->
       t = staging_steps (a_nobarcodes a) (a_input a) e reg1
             ++ genome_steps (a_genome a) e /\
       exists reg,
         x = (e, snd (barcode_settings (a_nobarcodes a)), d, reg) /\
         reaches_loop C argv w a e d reg0 reg1 reg w1 /\
         (a_nobarcodes a = true -> reg = reg1)).
Proof.
  unfold main_setup. intros H.
  apply bind_inv in H as [(x & H & ->)|(a & w0 & Ha & H)].
  { apply lift_inv in H as [Hp ->]. left. exists x, []. rewrite app_nil_r.
    split_and!; [done|done|]. by rewrite <-Hp. }
  apply lift_inv in Ha as [Ha ->].
  apply bind_inv in H as [(x & H & ->)|(e & w0 & He & H)].
  { apply call_inv in H as [_ L]. left. eexists x, [_].
    split_and!; [done|done|]. rewrite <-Ha. exists "". by eexists [_; _]. }
  apply call_inv in He as [Sc Lc].
  apply bind_inv in H as [(x & H & ->)|(d & w0' & Hd & H)].
  { apply lift_inv in H as [_ ->]. left. eexists x, [_].
    split_and!; [done|done|]. rewrite <-Ha. exists e. by eexists [_; _]. }
  apply lift_inv in Hd as [Hd ->].
  destruct (barcode_settings (a_nobarcodes a)) as [qc bl] eqn:Ebs.
  assert (qc = negb (a_nobarcodes a)) as ->
    by (by rewrite <-barcode_settings_fst, Ebs).
  assert (bl = snd (barcode_settings (a_nobarcodes a))) as Ebl
    by (by rewrite Ebs).
  apply bind_inv in H as [(x & H & ->)|(reg0 & w2 & H1 & H)].
  { apply call_inv in H as [_ L]. left. eexists x, [_; _].
    split_and!; [done|by rewrite L, Lc, <-app_assoc|].
    rewrite <-Ha. exists e. by eexists [_]. }
  apply call_inv in H1 as [S1 L1].
  apply bind_inv in H as [(x & H & ->)|([] & w3 & H2 & H)].
  { apply call_inv in H as [_ L]. left. eexists x, [_; _; _].
    split_and!; [done|by rewrite L, L1, Lc, <-!app_assoc|].
    rewrite <-Ha. by exists e. }
  apply call_inv in H2 as [S2 L2].
  apply bind_inv in H as [(x & H & ->)|(reg1 & w4 & H3 & H)].
  { apply attach_all_spec in H as [-> _]. left. eexists x, [_; _; _].
    split_and!; [done|by rewrite L2, L1, Lc, <-!app_assoc|].
    rewrite <-Ha. by exists e. }
  pose proof H3 as H3'. apply attach_all_spec in H3' as [-> _].
  assert (reaches_staging C argv w a e d reg0 reg1 w3) as Hst.
  { exists (w_os w0), (w_os w2), (w_os w3). split_and!; try done.
    destruct w3 as [os3 l3]; simpl in *.
    by rewrite L2, L1, Lc, <-!app_assoc. }
  right. exists a, e, d, reg0, reg1, w3.
  apply bind_inv in H as [(x & H & ->)|(reg2 & w5 & H4 & H)].
  { apply stage_reads_log in H as (t & L & P & _). exists t.
    split_and!; [done|done|by apply prefix_app_r|done]. }
  pose proof H4 as H4'.
  apply stage_reads_log in H4' as (t4 & L4 & _ & E4).
  destruct (E4 _ eq_refl) as [-> Hnb].
  apply bind_inv in H as [(x & H & ->)|([] & w6 & H5 & H)].
  { apply prepare_genome_log in H as (t & L & P & _). eexists (_ ++ t).
    split_and!; [done|by rewrite L, L4, app_assoc|by apply prefix_app|done]. }
  pose proof H5 as H5'.
  apply prepare_genome_log in H5' as (t5 & L5 & _ & E5).
  rewrite E5 in L5 by done. inversion H; subst.
  eexists (_ ++ _).
  split_and!; [done|by rewrite L5, L4, app_assoc|done|].
  intros x [= <-]. split; [done|]. exists reg2.
  split_and!; [done| |done]. by exists w3, w5.
Qed.

(** What has happened when the per-sample loop is about to start. *)
Lemma main_setup_ok argv w x w1 :
  main_setup C argv w = (Ok x, w1) ->
  exists a e d reg0 reg1 reg,
    x = (e, snd (barcode_settings (a_nobarcodes a)), d, reg) /\
    reaches_loop C argv w a e d reg0 reg1 reg w1 /\
    attached e reg0 reg1 /\
    (a_nobarcodes a = true -> reg = reg1) /\
    w_log w1 = w_log w ++ setup_steps a e reg1.
Proof.
  intros H. apply main_setup_inv in H
    as [(y & t & ? & _)|(a & e & d & reg0 & reg1 & w2 & t & Hst & L & _ & E)];
    [done|].
  destruct (E _ eq_refl) as (-> & reg & -> & Hloop & Hnb).
  apply reaches_staging_log in Hst as [L2 Hatt].
  exists a, e, d, reg0, reg1, reg. split_and!; try done.
  unfold setup_steps. by rewrite L, L2, <-app_assoc.
Qed.

(** The log of a run that stops before the per-sample loop. *)
Lemma main_setup_raise argv w x w1 :
  main_setup C argv w = (Raise x, w1) ->
  exists t, w_log w1 = w_log w ++ t /\
    match parseArgs argv with
    | Raise y => x = y /\ w1 = w
    | Ok a => exists e reg1, t `prefix_of` setup_steps a e reg1
    end.
Proof.
  intros H. apply main_setup_inv in H
    as [(y & t & [= <-] & L & H)
       |(a & e & d & reg0 & reg1 & w2 & t & Hst & L & P & _)].
  - exists t. split; [done|]. destruct (parseArgs argv) as [a|]; [|done].
    destruct H as [e P]. exists e, []. unfold setup_steps.
    change ([?x; ?y; ?z] ++ ?l) with ([x; y; z] ++ l). by apply prefix_app_r.
  - pose proof Hst as (_ & _ & _ & -> & _).
    apply reaches_staging_log in Hst as [L2 _].
    eexists. rewrite L, L2, <-app_assoc. split; [done|].
    exists e, reg1. unfold setup_steps.
    change ([?x; ?y; ?z] ++ ?l) with ([x; y; z] ++ l). by apply prefix_app.
Qed.

(** A run stops before the per-sample loop, or reaches it and goes
    through lines 124-144 from there. *)
Lemma main_cases argv w r w' :
  main C argv w = (r, w') ->
  (exists x, main_setup C argv w = (Raise x, w') /\ r = Raise x) \/
  (exists a e d reg0 reg1 reg w1,
     reaches_loop C argv w a e d reg0 reg1 reg w1 /\
     attached e reg0 reg1 /\
     (a_nobarcodes a = true -> reg = reg1) /\
     w_log w1 = w_log w ++ setup_steps a e reg1 /\
     process_samples C e (snd (barcode_settings (a_nobarcodes a))) d reg w1
       = (r, w')).
Proof.
  unfold main. intros H.
  apply bind_inv in H as [(x & H & ->)|(x & w1 & H1 & H)]; [eauto|].
  right. apply main_setup_ok in H1
    as (a & e & d & reg0 & reg1 & reg & -> & Hloop & Hatt & Hnb & L).
  exists a, e, d, reg0, reg1, reg, w1. done.
Qed.

(** The log of any run of [main] is an initial part of the schedule, and
    the whole of it when [main] returns. *)
Lemma main_trace argv w r w' :
  main C argv w = (r, w') ->
  match parseArgs argv with
  | Raise x => r = Raise x /\ w' = w
  | Ok a =>
      exists t e d reg1 reg2 gm, w_log w' = w_log w ++ t /\
        t `prefix_of` schedule a e d reg1 reg2 gm /\
        (a_nobarcodes a = true -> reg2 = reg1) /\
        (is_ok r = true -> t = schedule a e d reg1 reg2 gm)
  end.
Proof.
  intros H. apply main_cases in H
    as [(x & H & ->)
       |(a & e & d & reg0 & reg1 & reg & w1 & Hloop & _ & Hnb & L & H)].
  - apply main_setup_raise in H as (t & L & H).
    destruct (parseArgs argv) as [a|]; [|by destruct H as [-> ->]].
    destruct H as (e & reg1 & P).
    exists t, e, 0%float, reg1, reg1, []. split_and!; [done| |done|done].
    unfold schedule. by apply prefix_app_r.
  - pose proof Hloop as (_ & _ & (_ & _ & _ & -> & _) & _).
    apply process_samples_log in H as (t2 & gm & L2 & P2 & E2).
    exists (setup_steps a e reg1 ++ t2), e, d, reg1, reg, gm.
    unfold schedule. split_and!.
    + by rewrite L2, L, app_assoc.
    + by apply prefix_app.
    + done.
    + intros Hr. by rewrite E2.
Qed.

End Run.

(** ** What the schedule contains *)

Section ScheduleFacts.

Lemma setup_steps_no_sample_event a e reg1 :
  Forall (λ ev, is_sample_event ev = false) (setup_steps a e reg1).
Proof.
  unfold setup_steps, staging_steps, copy_steps, genome_steps.
  repeat apply Forall_cons_2; try done.
  apply Forall_app_2.
  - destruct (a_nobarcodes a).
    + apply Forall_fmap, Forall_forall. done.
    + by repeat constructor.
  - by repeat constructor.
Qed.

Lemma elem_of_loop_steps ev e bl d reg :
  ev ∈ loop_steps e bl d reg <->
  exists sample, sample ∈ keys reg /\ ev ∈ sample_steps e bl d reg sample.
Proof.
  unfold loop_steps. rewrite list_elem_of_bind.
  split; intros (sample & ? & ?); eauto.
Qed.

Lemma gene_calls_setup a e reg1 : omap gene_call (setup_steps a e reg1) = [].
Proof.
  unfold setup_steps, staging_steps, copy_steps, genome_steps. simpl.
  rewrite omap_app. simpl. rewrite app_nil_r.
  destruct (a_nobarcodes a); [|done].
  induction (keys reg1) as [|k ks IH]; [done|]. by rewrite fmap_cons.
Qed.

Lemma gene_calls_loop e bl d reg (samples : list string) :
  omap gene_call (samples ≫= sample_steps e bl d reg)
  = (λ sample, (sample, d)) <$> samples.
Proof.
  induction samples as [|k ks IH]; [done|].
  rewrite bind_cons, omap_app, IH. done.
Qed.

Lemma omap_prefix {A B} (f : A -> option B) (l1 l2 : list A) :
  l1 `prefix_of` l2 -> omap f l1 `prefix_of` omap f l2.
Proof. intros [k ->]. rewrite omap_app. by eexists. Qed.

Lemma elem_of_prefix {A} (x : A) (l1 l2 : list A) :
  l1 `prefix_of` l2 -> x ∈ l1 -> x ∈ l2.
Proof. intros [k ->] ?. apply elem_of_app. auto. Qed.


Lemma calls_of_app tag t1 t2 :
  calls_of tag (t1 ++ t2) = calls_of tag t1 + calls_of tag t2.
Proof. unfold calls_of. by rewrite filter_app, length_app. Qed.

Lemma calls_of_none (tag : string) t :
  Forall (λ ev, ev_tag ev <> tag) t -> calls_of tag t = 0.
Proof.
  unfold calls_of. induction 1 as [|ev t Hev _ IH]; [done|].
  by rewrite filter_cons_False.
Qed.

Lemma calls_of_prefix tag t1 t2 :
  t1 `prefix_of` t2 -> calls_of tag t1 <= calls_of tag t2.
Proof. intros [k ->]. rewrite calls_of_app. lia. Qed.

Lemma staging_steps_tags (nb : bool) reads e reg1 :
  Forall (λ ev, ev_tag ev = if nb then "copyfile" else "demultiplex_fastq")
    (staging_steps nb reads e reg1).
Proof.
  unfold staging_steps, copy_steps. destruct nb.
  - apply Forall_fmap, Forall_forall. done.
  - by repeat constructor.
Qed.



(** [sample_prep] and [gbk2ftt] are each called once in the set-up. *)
Lemma setup_steps_constructions a e reg1 :
  calls_of "sample_prep" (setup_steps a e reg1) = 1 /\
  calls_of "gbk2ftt" (setup_steps a e reg1) = 1.
Proof.
  unfold setup_steps.
  change ([?x; ?y; ?z] ++ ?l) with ([x; y; z] ++ l).
  rewrite !calls_of_app.
  rewrite !(calls_of_none _ (staging_steps _ _ _ _)).
  - done.
  - eapply Forall_impl; [apply staging_steps_tags|].
    intros ev ->. by destruct (a_nobarcodes a).
  - eapply Forall_impl; [apply staging_steps_tags|].
    intros ev ->. by destruct (a_nobarcodes a).
Qed.

End ScheduleFacts.

(** * The claims *)

(** ** Runs that stop before the per-sample loop *)

Lemma Forall_prefix {A} (P : A -> Prop) (l1 l2 : list A) :
  l1 `prefix_of` l2 -> Forall P l2 -> Forall P l1.
Proof. intros [k ->] H. by apply Forall_app in H as [? _]. Qed.


Lemma app_eq_self_inv {A} (l t : list A) : l = l ++ t -> t = [].
Proof.
  intros H. rewrite <-(app_nil_r l) in H at 1. by apply app_inv_head in H.
Qed.

(** Such a run has made no call of the per-sample loop, and at most one
    call of [sample_prep] and of [gbk2ftt]. *)
Lemma setup_raise_facts (C : Collaborators) argv w x w1 :
  main_setup C argv w = (Raise x, w1) ->
  exists pre, w_log w1 = w_log w ++ pre /\
    Forall (λ ev, is_sample_event ev = false) pre /\
    calls_of "sample_prep" pre <= 1 /\ calls_of "gbk2ftt" pre <= 1 /\
    omap gene_call pre = [].
Proof.
  intros H. apply main_setup_raise in H as (t & L & H). exists t.
  split; [done|]. destruct (parseArgs argv) as [a|y].
  - destruct H as (e & reg1 & P).
    destruct (setup_steps_constructions a e reg1) as [K1 K2].
    split_and!.
    + eapply Forall_prefix; [exact P|apply setup_steps_no_sample_event].
    + rewrite <-K1. by apply calls_of_prefix.
    + rewrite <-K2. by apply calls_of_prefix.
    + apply (omap_prefix gene_call) in P. rewrite gene_calls_setup in P.
      by apply prefix_nil_inv in P.
  - destruct H as [_ ->]. apply app_eq_self_inv in L as ->.
    split_and!; [done|unfold calls_of; simpl; lia..|done].
Qed.

Lemma sample_event_tag ev :
  is_sample_event ev = true ->
  ev_tag ev <> "sample_prep" /\ ev_tag ev <> "gbk2ftt" /\
  ev_tag ev <> "copyfile" /\ ev_tag ev <> "demultiplex_fastq".
Proof. by destruct ev. Qed.

Lemma sample_steps_tag e bl d reg sample ev :
  ev ∈ sample_steps e bl d reg sample -> ev_tag ev <> "buildGeneTable".
Proof.
  unfold sample_steps. intros H.
  repeat (apply elem_of_cons in H as [->|H]; [done|]).
  destruct (proj1 (elem_of_nil _) H).
Qed.

Lemma not_sample_event_tag ev :
  is_sample_event ev = false ->
  ev_tag ev <> "buildGeneTable" /\ ev_tag ev <> "os.remove".
Proof. by destruct ev. Qed.

(** In a run that returns the table is built once. *)
Lemma one_table a e bl d reg1 reg gm :
  calls_of "buildGeneTable"
    (setup_steps a e reg1 ++ loop_steps e bl d reg
       ++ [EBuildGeneTable organism reg gm e]) = 1.
Proof.
  rewrite !calls_of_app.
  rewrite (calls_of_none _ (setup_steps _ _ _)), (calls_of_none _ (loop_steps _ _ _ _)).
  - done.
  - apply Forall_forall. intros ev Hin.
    apply elem_of_loop_steps in Hin as (sample & _ & Hin).
    by eapply sample_steps_tag.
  - eapply Forall_impl; [apply setup_steps_no_sample_event|].
    intros ev Hev. by destruct (not_sample_event_tag _ Hev).
Qed.

(** ** The order of the per-sample work *)

(** C5.  Samples are processed one after the other, in registry order.
    A run of [main] either stops before the per-sample loop, having made no
    call of the loop; or it reaches line 124 with the registry [reg], which
    is what the staging of the reads has left of the registry [reg0] that
    [sample_prep] returned: with [--nobarcodes] the samples of [reg] are
    those of [reg0], in the same order.  From there the log is an initial
    part of [steps(sample 1) ++ ... ++ steps(sample n) ++ [buildGeneTable]]
    for the samples of [reg] in order, the steps of a sample being trim,
    align, remove, map sites, map genes; when [main] returns the log is the
    whole of it, so the table is built once, after the gene-level result
    of the last sample. *)
Theorem samples_processed_sequentially (C : Collaborators) argv w r w' :
  main C argv w = (r, w') ->
  (exists x pre,
     main_setup C argv w = (Raise x, w') /\ r = Raise x /\
     w_log w' = w_log w ++ pre /\
     Forall (λ ev, is_sample_event ev = false) pre) \/
  (exists a e d reg0 reg1 reg w1 t gm,
     let bl := snd (barcode_settings (a_nobarcodes a)) in
     reaches_loop C argv w a e d reg0 reg1 reg w1 /\
     keys reg1 = keys reg0 /\
     (a_nobarcodes a = true -> reg = reg1) /\
     w_log w1 = w_log w ++ setup_steps a e reg1 /\
     Forall (λ ev, is_sample_event ev = false) (setup_steps a e reg1) /\
     w_log w' = w_log w1 ++ t /\
     t `prefix_of` (keys reg ≫= sample_steps e bl d reg)
                     ++ [EBuildGeneTable organism reg gm e] /\
     (is_ok r = true ->
        t = (keys reg ≫= sample_steps e bl d reg)
              ++ [EBuildGeneTable organism reg gm e] /\
        calls_of "buildGeneTable" (setup_steps a e reg1 ++ t) = 1)).
Proof.
  intros H. apply main_cases in H
    as [(x & H & ->)
       |(a & e & d & reg0 & reg1 & reg & w1 & Hloop & Hatt & Hnb & L & H)].
  - left. pose proof H as H'.
    apply setup_raise_facts in H' as (pre & Lp & F & _).
    exists x, pre. done.
  - right. apply process_samples_log in H as (t & gm & L2 & P & E).
    exists a, e, d, reg0, reg1, reg, w1, t, gm. cbv zeta.
    split_and!; try done.
    + by destruct Hatt.
    + apply setup_steps_no_sample_event.
    + intros Hr. rewrite (E Hr). split; [done|]. apply one_table.
Qed.

(** ** The default disruption fraction *)

Lemma last_opt_absent {A} (f : OptOcc -> option A) argv :
  (forall o, o ∈ argv -> f o = None) -> last_opt f argv = None.
Proof.
  unfold last_opt. intros H.
  assert (omap f argv = []) as ->; [|done].
  induction argv as [|o argv IH]; [done|].
  simpl. rewrite (H o) by (apply elem_of_cons; auto).
  apply IH. intros o' ?. apply H, elem_of_cons. auto.
Qed.

Lemma parseArgs_default_disruption argv a :
  (forall v, ODisruption v ∉ argv) ->
  parseArgs argv = Ok a -> a_disruption a = VFloat 1%float.
Proof.
  intros Hd. unfold parseArgs.
  destruct (existsb is_help argv); [done|].
  rewrite (last_opt_absent opt_disruption).
  - repeat case_match; try done. by intros [= <-].
  - intros [] Ho; try done. by apply Hd in Ho.
Qed.

(** The calls of [mapGenes] in a log of the per-sample loop. *)
Lemma gene_calls_of_loop e bl d reg gm t :
  t `prefix_of` loop_steps e bl d reg ++ [EBuildGeneTable organism reg gm e] ->
  omap gene_call t `prefix_of` (λ sample, (sample, d)) <$> keys reg.
Proof.
  intros P. apply (omap_prefix gene_call) in P.
  unfold loop_steps in P. rewrite omap_app, gene_calls_loop in P.
  simpl in P. by rewrite app_nil_r in P.
Qed.

Lemma gene_calls_of_whole_loop e bl d reg gm :
  omap gene_call (loop_steps e bl d reg ++ [EBuildGeneTable organism reg gm e])
  = (λ sample, (sample, d)) <$> keys reg.
Proof.
  unfold loop_steps. rewrite omap_app, gene_calls_loop. simpl.
  by rewrite app_nil_r.
Qed.

(** C9.  Without [-d] on the command line the disruption fraction is
    [1.0] for every sample.  A run either stops before the per-sample
    loop, and has not called [mapGenes]; or it reaches line 124 with the
    disruption fraction [1.0] and the registry [reg], and from there the
    calls of [mapGenes] are, in order, one call with [1.0] for each sample
    of [reg]: all of them when [main] returns, an initial part when a
    sample raises. *)
Theorem default_disruption_is_one (C : Collaborators) argv w r w' :
  (forall v, ODisruption v ∉ argv) ->
  main C argv w = (r, w') ->
  (exists x pre,
     main_setup C argv w = (Raise x, w') /\ r = Raise x /\
     w_log w' = w_log w ++ pre /\ omap gene_call pre = []) \/
  (exists a e reg0 reg1 reg w1 t,
     a_disruption a = VFloat 1%float /\
     reaches_loop C argv w a e 1%float reg0 reg1 reg w1 /\
     keys reg1 = keys reg0 /\
     (a_nobarcodes a = true -> reg = reg1) /\
     w_log w1 = w_log w ++ setup_steps a e reg1 /\
     omap gene_call (setup_steps a e reg1) = [] /\
     w_log w' = w_log w1 ++ t /\
     omap gene_call t `prefix_of` (λ sample, (sample, 1%float)) <$> keys reg /\
     (is_ok r = true ->
        omap gene_call t = (λ sample, (sample, 1%float)) <$> keys reg)).
Proof.
  intros Hd H. apply main_cases in H
    as [(x & H & ->)
       |(a & e & d & reg0 & reg1 & reg & w1 & Hloop & Hatt & Hnb & L & H)].
  - left. pose proof H as H'.
    apply setup_raise_facts in H' as (pre & Lp & _ & _ & _ & G).
    exists x, pre. done.
  - right. pose proof Hloop as (_ & _ & (_ & _ & _ & Ha & _ & Hf & _) & _).
    pose proof (parseArgs_default_disruption _ _ Hd Ha) as Hone.
    rewrite Hone in Hf. injection Hf as <-.
    apply process_samples_log in H as (t & gm & L2 & P & E).
    exists a, e, reg0, reg1, reg, w1, t.
    split_and!; try done.
    + by destruct Hatt.
    + apply gene_calls_setup.
    + by eapply gene_calls_of_loop.
    + intros Hr. rewrite (E Hr). apply gene_calls_of_whole_loop.
Qed.

(** ** The registry and the feature table *)



(** ** Barcodes *)









(** C2, as stated, fails: with two samples and an aligner that raises on
    the first, [main] raises; nothing is done for the second sample and the
    table is not built. *)
Lemma aligner_failure_stops_the_run :
  fst (main Demo.aligner_fails_on_A Demo.argv0 Demo.w0)
    = Raise (ExternalError "bowtie") /\
  ev_tag <$> w_log (snd (main Demo.aligner_fails_on_A Demo.argv0 Demo.w0))
    = ["convert_to_filename"; "sample_prep"; "createExperimentDirectories";
       "demultiplex_fastq"; "gbk2fna"; "gbk2ftt"; "bowtieBuild";
       "trim_fastq"; "bowtieMap"].
Proof. split; vm_compute; reflexivity. Qed.


(** C1.  [-d 1.5] is accepted: [main] raises nothing, and [mapGenes] is
    called with [1.5] for both samples. *)
Theorem disruption_out_of_range_accepted :
  in_unit_interval 1.5 = false /\
  fst (main Demo.two_samples (Demo.argv0 ++ [ODisruption "1.5"]) Demo.w0)
    = Ok tt /\
  omap gene_call
    (w_log (snd (main Demo.two_samples (Demo.argv0 ++ [ODisruption "1.5"])
                   Demo.w0)))
    = [("A", 1.5%float); ("B", 1.5%float)].
Proof. split_and!; vm_compute; reflexivity. Qed.

(** ** The [cd] context manager *)

Lemma render_is_abs stack : is_abs (render stack) = true.
Proof.
  destruct stack as [|x stack]; [done|]. unfold render.
  assert (forall l acc, is_abs acc = true ->
            is_abs (foldl (λ acc name, "/" +:+ name +:+ acc) acc l) = true)
    as Hfold.
  { induction l as [|y l IH]; intros acc Hacc; [done|]. simpl. by apply IH. }
  simpl. by apply Hfold.
Qed.

(** A path in normal form names itself, from any directory. *)
Lemma resolve_canonical os p : canonical p -> resolve os p = p.
Proof.
  intros H. unfold resolve, resolve_at.
  assert (is_abs p = true) as -> by (rewrite <-H; apply render_is_abs).
  exact H.
Qed.

Lemma os_chdir_inv p os r os' :
  os_chdir p os = (r, os') ->
  (r = Ok tt /\ (resolve os p ∈ dirs os) /\
     os' = mkOS (resolve os p) (dirs os) (files os)) \/
  (r = Raise (FileNotFoundError p) /\ (resolve os p ∉ dirs os) /\ os' = os).
Proof.
  unfold os_chdir. destruct (decide (resolve os p ∈ dirs os));
    intros [= <- <-]; auto.
Qed.

(** C8, as stated, fails: when the directory saved on entry is removed
    while the body runs, [os.chdir] in [__exit__] raises and the process
    stays in the directory of the block. *)
Lemma cd_stays_put_when_saved_directory_is_gone :
  let run := cd Demo.two_samples "exp/genome_lookup/" DemoMore.pulls_the_rug
               Demo.w1 in
  cwd (w_os Demo.w1) = "/work" /\
  fst run = Raise (FileNotFoundError "/work") /\
  cwd (w_os (snd run)) = "/work/exp/genome_lookup" /\
  cwd (w_os (snd run)) <> cwd (w_os Demo.w1).
Proof. split_and!; [vm_compute; reflexivity..|]. vm_compute. discriminate. Qed.

(** C8, as the script has it.  A [with cd(...)] block that is left while
    the directory saved on entry still exists leaves the process in that
    directory, whether the body returned or raised; the outcome of the
    block is the outcome of its body, and everything but the current
    directory is as the body left it.  The saved directory is what
    [os.getcwd] returned, a path in normal form. *)
Theorem cd_restores_cwd (C : Collaborators) {A} newPath (body : M A) w r w' :
  canonical (cwd (w_os w)) ->
  cwd (w_os w) ∈ dirs (w_os w') ->
  cd C newPath body w = (r, w') ->
  cwd (w_os w') = cwd (w_os w) /\
  forall w1 rb w2,
    chdir (expanduser C newPath) w = (Ok tt, w1) ->
    body w1 = (rb, w2) ->
    r = rb /\ w_log w' = w_log w2 /\
    dirs (w_os w') = dirs (w_os w2) /\ files (w_os w') = files (w_os w2).
Proof.
  intros Habs Hdir H.
  apply cd_inv in H as [(x & H1 & ->)|(w1 & rb & w2 & H1 & H2 & H3)].
  - pose proof H1 as H1'. apply chdir_inv in H1 as [H1 _].
    apply os_chdir_inv in H1 as [(? & _)|(_ & _ & E)]; [discriminate|].
    rewrite E. split; [done|]. intros w1 rb w2 E1. congruence.
  - destruct H3 as [(x & H3 & ->)|[H3 ->]].
    + apply chdir_inv in H3 as [H3 _].
      apply os_chdir_inv in H3 as [(? & _)|(_ & Hn & E)]; [discriminate|].
      rewrite resolve_canonical in Hn by done. by rewrite E in Hdir.
    + apply chdir_inv in H3 as [H3 L3].
      apply os_chdir_inv in H3 as [(_ & _ & E)|(? & _)]; [|discriminate].
      rewrite resolve_canonical in E by done. rewrite E. simpl. split; [done|].
      intros w1' rb' w2' E1 E2. rewrite H1 in E1. injection E1 as <-.
      rewrite H2 in E2. by injection E2 as <- <-.
Qed.

Lemma cd_restores_cwd_witness :
  let body := call (EBowtieMap organism "../A_trimmed.fastq" "../A_bowtie.txt")
                (bowtieMap Demo.aligner_fails_on_A organism
                   "../A_trimmed.fastq" "../A_bowtie.txt") in
  let run := cd Demo.aligner_fails_on_A "exp/genome_lookup/" body Demo.w1 in
  fst run = Raise (ExternalError "bowtie") /\
  cwd (w_os (snd run)) = "/work".
Proof.
  intros body run. split; [vm_compute; reflexivity|].
  refine (proj1 (cd_restores_cwd Demo.aligner_fails_on_A "exp/genome_lookup/"
                   body Demo.w1 (fst run) (snd run) _ _ _)).
  - vm_compute. reflexivity.
  - apply (bool_decide_eq_true_1 _). vm_compute. reflexivity.
  - apply surjective_pairing.
Defined.

(** ** A failure inside the per-sample loop *)

Lemma for_each_app {A S} (xs ys : list A) (body : S -> A -> M S) acc w :
  for_each (xs ++ ys) body acc w =
  (acc' <- for_each xs body acc ;; for_each ys body acc') w.
Proof.
  revert acc w. induction xs as [|x xs IH]; intros acc w; [done|].
  simpl. unfold bind. destruct (body acc x w) as [[acc1|x0] w1]; [|done].
  rewrite IH. done.
Qed.

(** C2, as the script has it.  When the aligner raises for a sample, [main]
    raises: the samples after it are not processed and the table is not
    built.  The log ends with the call of the aligner for that sample; the
    exception is the aligner's own when the directory [main] was started in
    still exists. *)
Theorem aligner_failure_aborts_run (C : Collaborators) e bl d reg
    done sample rest gm1 w w1 s inp out osa osb osc x :
  keys reg = done ++ sample :: rest ->
  sample_loop C e bl d reg done [] w = (Ok gm1, w1) ->
  reg_get reg sample = Ok s ->
  dict_get s "demultiplexedPath" = Ok inp ->
  dict_get s "trimmedPath" = Ok out ->
  trim_fastq C inp out sample bl (w_os w1) = (Ok tt, osa) ->
  os_chdir (expanduser C (genomeDir e)) osa = (Ok tt, osb) ->
  bowtieMap C organism ("../" +:+ sample +:+ "_trimmed.fastq")
    ("../" +:+ sample +:+ "_bowtie.txt") osb = (Raise x, osc) ->
  exists x' w',
    process_samples C e bl d reg w = (Raise x', w') /\
    w_log w' = w_log w ++ (done ≫= sample_steps e bl d reg)
                 ++ [ETrim inp out sample bl;
                     EBowtieMap organism ("../" +:+ sample +:+ "_trimmed.fastq")
                       ("../" +:+ sample +:+ "_bowtie.txt")] /\
    (resolve osc (cwd osa) ∈ dirs osc -> x' = x).
Proof.
  intros Hk Hdone Hs Hi Ho Htrim Hcd Hmap.
  pose proof Hdone as Hlog.
  apply sample_loop_log in Hlog as (t & L & _ & E). rewrite (E eq_refl) in L.
  assert (exists x' w', sample_body C e bl d reg gm1 sample w1 = (Raise x', w')
            /\ w_log w' = w_log w1 ++
                 [ETrim inp out sample bl;
                  EBowtieMap organism ("../" +:+ sample +:+ "_trimmed.fastq")
                    ("../" +:+ sample +:+ "_bowtie.txt")]
            /\ (resolve osc (cwd osa) ∈ dirs osc -> x' = x))
    as (x' & w' & Hbody & Lbody & Hx).
  { unfold sample_body, bind, lift, call, cd, chdir.
    rewrite Hs, Hi, Ho, Htrim. simpl. rewrite Hcd. simpl. rewrite Hmap.
    simpl. destruct (os_chdir (cwd osa) osc) as [[[]|x1] os1] eqn:Eexit; simpl.
    - eexists _, _. split; [reflexivity|]. simpl. rewrite <-app_assoc. done.
    - eexists _, _. split; [reflexivity|]. simpl. rewrite <-app_assoc.
      split; [done|]. intros Hd.
      apply os_chdir_inv in Eexit as [(? & _)|(_ & Hn & _)]; done. }
  exists x', w'. split_and!; [|by rewrite Lbody, L, <-app_assoc|done].
  unfold process_samples, sample_loop in *. unfold bind at 1.
  rewrite Hk, for_each_app. unfold bind at 1. rewrite Hdone. simpl.
  unfold bind at 1. by rewrite Hbody.
Qed.

(** ** The trimmed-read files *)

Lemma os_remove_inv p os r os' :
  os_remove p os = (r, os') ->
  (r = Ok tt /\
     os' = mkOS (cwd os) (dirs os) (files os ∖ {[ resolve os p ]})) \/
  (r = Raise (FileNotFoundError p) /\ (resolve os p ∉ files os) /\ os' = os).
Proof.
  unfold os_remove. destruct (decide (resolve os p ∈ files os));
    intros [= <- <-]; auto.
Qed.

Section Cleanup.

Context (C : Collaborators) (e : string) (bl : nat) (d : float).
Context (reg : Registry) (temps : list string) (c0 : string).
Hypothesis Habs : canonical c0.
Hypothesis Htidy : tidy C e bl d temps.

(** The aligner block creates no trimmed-read file and, when it returns,
    leaves the process where it was. *)
Lemma align_block_frame sample w r w' :
  cwd (w_os w) = c0 ->
  cd C (genomeDir e)
     (call (EBowtieMap organism ("../" +:+ sample +:+ "_trimmed.fastq")
              ("../" +:+ sample +:+ "_bowtie.txt"))
           (bowtieMap C organism ("../" +:+ sample +:+ "_trimmed.fastq")
              ("../" +:+ sample +:+ "_bowtie.txt"))) w = (r, w') ->
  (forall p, p ∈ temps -> p ∈ files (w_os w') -> p ∈ files (w_os w)) /\
  (is_ok r = true -> cwd (w_os w') = c0).
Proof.
  intros Hc H.
  apply cd_inv in H as [(x & H1 & ->)|(w1 & rb & w2 & H1 & H2 & H3)].
  - apply chdir_inv in H1 as [H1 _].
    apply os_chdir_inv in H1 as [(? & _)|(_ & _ & ->)]; [discriminate|].
    done.
  - apply chdir_inv in H1 as [H1 _].
    apply os_chdir_inv in H1 as [(_ & _ & E1)|(? & _)]; [|discriminate].
    apply call_inv in H2 as [H2 _].
    assert (forall p, p ∈ temps -> p ∈ files (w_os w2) -> p ∈ files (w_os w))
      as F.
    { intros p Hp Hin. pose proof (tidy_align _ _ _ _ _ Htidy sample (w_os w1) p Hp)
        as T. rewrite H2 in T. simpl in T. apply T in Hin.
      by rewrite E1 in Hin. }
    destruct H3 as [(x & H3 & ->)|[H3 ->]].
    + apply chdir_inv in H3 as [H3 _].
      apply os_chdir_inv in H3 as [(? & _)|(_ & _ & ->)]; [discriminate|].
      done.
    + apply chdir_inv in H3 as [H3 _].
      apply os_chdir_inv in H3 as [(_ & _ & E3)|(? & _)]; [|discriminate].
      rewrite E3. simpl. split; [done|]. intros _.
      rewrite Hc. by apply resolve_canonical.
Qed.

(** One iteration creates no trimmed-read file but its own and, when it
    completes, has removed that one. *)
Lemma sample_body_frame gm sample w r w' :
  cwd (w_os w) = c0 ->
  trimmed_file reg c0 sample ∈ temps ->
  sample_body C e bl d reg gm sample w = (r, w') ->
  (forall p, p ∈ temps -> p <> trimmed_file reg c0 sample ->
     p ∈ files (w_os w') -> p ∈ files (w_os w)) /\
  (is_ok r = true ->
     cwd (w_os w') = c0 /\ (trimmed_file reg c0 sample ∉ files (w_os w'))).
Proof.
  unfold sample_body, trimmed_file. intros Hc Ht H.
  apply bind_inv in H as [(x & H & ->)|(s & w0 & Hs & H)].
  { apply lift_inv in H as [_ ->]. done. }
  apply lift_inv in Hs as [Hs ->]. symmetry in Hs.
  apply bind_inv in H as [(x & H & ->)|(inp & w0 & Hi & H)].
  { apply lift_inv in H as [_ ->]. done. }
  apply lift_inv in Hi as [Hi ->]. symmetry in Hi.
  apply bind_inv in H as [(x & H & ->)|(out & w0 & Ho & H)].
  { apply lift_inv in H as [_ ->]. done. }
  apply lift_inv in Ho as [Ho ->]. symmetry in Ho.
  rewrite (field_get _ _ _ _ _ Hs Ho) in *.
  (* trim_fastq *)
  assert (forall r1 w1,
    call (ETrim inp out sample bl) (trim_fastq C inp out sample bl) w = (r1, w1) ->
    cwd (w_os w1) = c0 /\
    forall p, p <> resolve_at c0 out -> p ∈ files (w_os w1) -> p ∈ files (w_os w))
    as Htrim.
  { intros r1 w1 H1. apply call_inv in H1 as [H1 _].
    destruct (tidy_trim _ _ _ _ _ Htidy inp out sample) as [K1 K2].
    specialize (K1 (w_os w)). specialize (K2 (w_os w)).
    rewrite H1 in K1, K2. simpl in K1, K2. split; [congruence|].
    intros p Hne Hin. apply K2 in Hin as [?|Hin]; [done|].
    unfold resolve in Hin. by rewrite Hc in Hin. }
  apply bind_inv in H as [(x & H & ->)|([] & w1 & H1 & H)].
  { apply Htrim in H as [_ F]. split; [|done]. intros p _. apply F. }
  apply Htrim in H1 as [Hc1 F1].
  (* the aligner *)
  apply bind_inv in H as [(x & H & ->)|([] & w2 & H2 & H)].
  { apply (align_block_frame _ _ _ _ Hc1) in H as [F _]. split; [|done].
    intros p Hp Hne Hin. apply F1; [done|]. by apply F. }
  apply (align_block_frame _ _ _ _ Hc1) in H2 as [F2 Hc2].
  specialize (Hc2 eq_refl).
  apply bind_inv in H as [(x & H & ->)|(out' & w3 & Ho' & H)].
  { apply lift_inv in H as [_ ->]. split; [|done].
    intros p Hp Hne Hin. apply F1; [done|]. by apply F2. }
  apply lift_inv in Ho' as [Ho' ->]. rewrite Ho in Ho'. injection Ho' as ->.
  (* os.remove *)
  assert (forall r3 w3, remove out w2 = (r3, w3) ->
    cwd (w_os w3) = c0 /\
    (forall p, p ∈ files (w_os w3) -> p ∈ files (w_os w2)) /\
    (is_ok r3 = true -> resolve_at c0 out ∉ files (w_os w3))) as Hrm.
  { intros r3 w3 H3. apply call_inv in H3 as [H3 _].
    apply os_remove_inv in H3 as [(-> & E)|(-> & _ & E)]; rewrite E; simpl.
    - split_and!; [done| |].
      + by intros p [? _]%elem_of_difference.
      + intros _. unfold resolve. rewrite Hc2.
        intros [_ Hn]%elem_of_difference. by apply Hn, elem_of_singleton.
    - done. }
  apply bind_inv in H as [(x & H & ->)|([] & w3 & H3 & H)].
  { apply Hrm in H as (_ & F & _). split; [|done].
    intros p Hp Hne Hin. apply F1; [done|]. by apply F2, F. }
  apply Hrm in H3 as (Hc3 & F3 & N3). specialize (N3 eq_refl).
  (* mapSites *)
  assert (forall r4 w4,
    call (EMapSites (e +:+ "/" +:+ sample +:+ "_bowtie.txt"))
         (mapSites C (e +:+ "/" +:+ sample +:+ "_bowtie.txt")) w3 = (r4, w4) ->
    cwd (w_os w4) = c0 /\
    forall p, p ∈ temps -> p ∈ files (w_os w4) -> p ∈ files (w_os w3))
    as Hsites.
  { intros r4 w4 H4. apply call_inv in H4 as [H4 _].
    destruct (tidy_sites _ _ _ _ _ Htidy (e +:+ "/" +:+ sample +:+ "_bowtie.txt"))
      as [K1 K2].
    specialize (K1 (w_os w3)). specialize (K2 (w_os w3)).
    rewrite H4 in K1, K2. simpl in K1, K2. split; [congruence|done]. }
  apply bind_inv in H as [(x & H & ->)|([] & w4 & H4 & H)].
  { apply Hsites in H as [_ F]. split; [|done].
    intros p Hp Hne Hin. apply F1; [done|]. by apply F2, F3, F. }
  apply Hsites in H4 as [Hc4 F4].
  (* mapGenes *)
  assert (forall r5 w5,
    call (EMapGenes organism sample d e) (mapGenes C organism sample d e) w4
      = (r5, w5) ->
    cwd (w_os w5) = c0 /\
    forall p, p ∈ temps -> p ∈ files (w_os w5) -> p ∈ files (w_os w4))
    as Hgenes.
  { intros r5 w5 H5. apply call_inv in H5 as [H5 _].
    destruct (tidy_genes _ _ _ _ _ Htidy sample) as [K1 K2].
    specialize (K1 (w_os w4)). specialize (K2 (w_os w4)).
    rewrite H5 in K1, K2. simpl in K1, K2. split; [congruence|done]. }
  apply bind_inv in H as [(x & H & ->)|(g & w5 & H5 & H)].
  { apply Hgenes in H as [_ F]. split; [|done].
    intros p Hp Hne Hin. apply F1; [done|]. by apply F2, F3, F4, F. }
  apply Hgenes in H5 as [Hc5 F5]. inversion H; subst. split.
  - intros p Hp Hne Hin. apply F1; [done|]. by apply F2, F3, F4, F5.
  - intros _. split; [done|]. intros Hin. apply N3. by apply F4, F5.
Qed.

(** The loop creates no trimmed-read file but those of its samples and,
    when it completes, has removed them all. *)
Lemma sample_loop_frame samples gm w r w' :
  cwd (w_os w) = c0 ->
  (forall sample, sample ∈ samples -> trimmed_file reg c0 sample ∈ temps) ->
  NoDup (trimmed_file reg c0 <$> samples) ->
  sample_loop C e bl d reg samples gm w = (r, w') ->
  (forall p, p ∈ temps -> p ∉ trimmed_file reg c0 <$> samples ->
     p ∈ files (w_os w') -> p ∈ files (w_os w)) /\
  (is_ok r = true ->
     cwd (w_os w') = c0 /\
     forall sample, sample ∈ samples ->
       trimmed_file reg c0 sample ∉ files (w_os w')).
Proof.
  unfold sample_loop. revert gm w.
  induction samples as [|x xs IH]; intros gm w Hc Ht Hnd H.
  - inversion H; subst. split; [done|]. intros _. split; [done|].
    intros sample Hin. by apply elem_of_nil in Hin.
  - rewrite fmap_cons in Hnd. apply NoDup_cons in Hnd as [Hx Hnd].
    simpl in H. apply bind_inv in H as [(x0 & H & ->)|(gm1 & w1 & H1 & H)].
    + apply (sample_body_frame _ _ _ _ _ Hc) in H as [F _];
        [|apply Ht, elem_of_cons; auto].
      split; [|done]. intros p Hp Hn. apply F; [done|].
      intros ->. apply Hn. rewrite fmap_cons. apply elem_of_cons. auto.
    + apply (sample_body_frame _ _ _ _ _ Hc) in H1 as [F1 G1];
        [|apply Ht, elem_of_cons; auto].
      destruct (G1 eq_refl) as [Hc1 N1].
      apply (IH _ _ Hc1) in H as [F G]; [| |done].
      2:{ intros sample Hin. apply Ht, elem_of_cons. auto. }
      split.
      * intros p Hp Hn Hin. rewrite fmap_cons, not_elem_of_cons in Hn.
        destruct Hn as [Hne Hn]. apply F1; [done|done|]. by apply F.
      * intros Hr. destruct (G Hr) as [Hc' N]. split; [done|].
        intros sample [->|Hin]%elem_of_cons; [|by apply N].
        intros Hin. apply N1, F; [|done|done].
        apply Ht, elem_of_cons. auto.
Qed.

End Cleanup.

(** C3.  Each sample's trimmed-read file is removed right after the call
    of the aligner for that sample.  Once the samples [done] have been
    processed their trimmed-read files are gone, and they stay gone
    whatever happens to the samples [rest] processed after them: at the
    end of the run, whether [main] returns or a later sample raises, none
    of them is on disk.  The trimmed-read files of the samples are
    pairwise distinct files: [trimmed_file] is the normal form of a
    sample's ['trimmedPath'], so two spellings of one path count as one
    file. *)
Theorem trimmed_files_removed (C : Collaborators) e bl d reg done rest
    gm w gm1 w1 r w' :
  canonical (cwd (w_os w)) ->
  NoDup (trimmed_file reg (cwd (w_os w)) <$> (done ++ rest)) ->
  tidy C e bl d (trimmed_file reg (cwd (w_os w)) <$> (done ++ rest)) ->
  sample_loop C e bl d reg done gm w = (Ok gm1, w1) ->
  sample_loop C e bl d reg (done ++ rest) gm w = (r, w') ->
  w_log w1 = w_log w ++ (done ≫= sample_steps e bl d reg) /\
  forall sample, sample ∈ done ->
    (trimmed_file reg (cwd (w_os w)) sample ∉ files (w_os w1)) /\
    (trimmed_file reg (cwd (w_os w)) sample ∉ files (w_os w')).
Proof.
  intros Habs Hnd Htidy Hdone Hall. split.
  { pose proof Hdone as Hlog.
    apply sample_loop_log in Hlog as (t & L & _ & E).
    by rewrite (E eq_refl) in L. }
  intros sample Hin.
  rewrite fmap_app in Hnd. apply NoDup_app in Hnd as (Hnd1 & Hdisj & Hnd2).
  assert (forall s, s ∈ done ++ rest ->
    trimmed_file reg (cwd (w_os w)) s ∈
      trimmed_file reg (cwd (w_os w)) <$> (done ++ rest)) as Hmem.
  { intros s Hs. apply list_elem_of_fmap. eauto. }
  pose proof Hdone as Hd.
  apply (sample_loop_frame _ _ _ _ _ _ _ Habs Htidy _ _ _ _ _ eq_refl) in Hd
    as [_ G]; [| |done].
  2:{ intros s Hs. apply Hmem, elem_of_app. auto. }
  destruct (G eq_refl) as [Hc1 N1]. split; [by apply N1|].
  unfold sample_loop in Hall. rewrite for_each_app in Hall.
  unfold bind in Hall. unfold sample_loop in Hdone. rewrite Hdone in Hall.
  apply (sample_loop_frame _ _ _ _ _ _ _ Habs Htidy _ _ _ _ _ Hc1) in Hall
    as [F _]; [| |done].
  2:{ intros s Hs. apply Hmem, elem_of_app. auto. }
  intros Hf. apply (N1 _ Hin), F; [|apply Hdisj|done].
  - apply Hmem, elem_of_app. auto.
  - apply list_elem_of_fmap. eauto.
Qed.

(** Two spellings of a path name one file. *)
Lemma same_file_two_spellings :
  resolve_at "/work" "exp/./a_trimmed.fastq"
  = resolve_at "/work" "exp/a_trimmed.fastq".
Proof. reflexivity. Qed.

(** ** The copy loop of [--nobarcodes] *)

Lemma attach_entry_name e s : attach_entry e s !! "name" = s !! "name".
Proof.
  unfold attach_entry. destruct (s !! "name") eqn:E; [|done].
  by rewrite !lookup_insert_ne.
Qed.

Lemma attach_paths_body_ok e reg sample s w :
  alist_get sample reg = Some s -> is_Some (s !! "name") ->
  exists reg', attach_paths_body e reg sample w = (Ok reg', w).
Proof.
  intros Hs [nm Hn]. unfold attach_paths_body, bind, lift, reg_get, dict_get.
  rewrite Hs, Hn, alist_get_set_eq. eauto.
Qed.

(** When every entry has a name the loop of lines 92-100 raises nothing. *)
Lemma attach_loop_ok e ks reg w :
  (forall k, k ∈ ks ->
     exists s, alist_get k reg = Some s /\ is_Some (s !! "name")) ->
  exists reg', for_each ks (attach_paths_body e) reg w = (Ok reg', w).
Proof.
  revert reg. induction ks as [|x ks IH]; intros reg Hall.
  - by eexists.
  - destruct (Hall x) as (s & Hs & Hn); [apply elem_of_cons; auto|].
    destruct (attach_paths_body_ok e reg x s w Hs Hn) as [reg1 H1].
    pose proof H1 as H1'.
    apply attach_paths_body_spec in H1' as [_ Hspec].
    destruct (Hspec _ eq_refl) as (_ & Gx & Go).
    destruct (IH reg1) as [reg' H2].
    { intros k Hk. destruct (decide (k = x)) as [->|Hne].
      - rewrite Gx, Hs. simpl. eexists. split; [done|].
        by rewrite attach_entry_name.
      - rewrite Go by done. apply Hall, elem_of_cons. auto. }
    exists reg'. simpl. unfold bind. by rewrite H1.
Qed.

Lemma bind_ok_eq {A B} (m : M A) (k : A -> M B) w a w1 :
  m w = (Ok a, w1) -> bind m k w = k a w1.
Proof. unfold bind. by intros ->. Qed.

Lemma bind_raise_eq {A B} (m : M A) (k : A -> M B) w x w1 :
  m w = (Raise x, w1) -> bind m k w = (Raise x, w1).
Proof. unfold bind. by intros ->. Qed.

Lemma bind_assoc {A B D} (m : M A) (f : A -> M B) (g : B -> M D) w :
  bind (bind m f) g w = bind m (λ a, bind (f a) g) w.
Proof. unfold bind. by destruct (m w) as [[a|x] w1]. Qed.

Lemma call_eq {A} ev (f : OS -> Outcome A * OS) w r os' :
  f (w_os w) = (r, os') -> call ev f w = (r, mkWorld os' (w_log w ++ [ev])).
Proof. unfold call. by intros ->. Qed.

(** Lines 63-89 when each of them succeeds: [main] goes on from line 92
    with the registry that [sample_prep] returned. *)
Lemma main_from_line_92 (C : Collaborators) argv a e d os0 reg0 os1 os2 w :
  parseArgs argv = Ok a ->
  convert_to_filename C (a_experiment a) (w_os w) = (Ok e, os0) ->
  py_float (float_of_str C) (a_disruption a) = Ok d ->
  sample_prep C (a_samples a) (negb (a_nobarcodes a)) os0 = (Ok reg0, os1) ->
  createExperimentDirectories C e os1 = (Ok tt, os2) ->
  main C argv w
  = (reg1 <- for_each (keys reg0) (attach_paths_body e) reg0 ;;
     reg2 <- stage_reads C (a_nobarcodes a) (a_input a) e reg1 ;;
     prepare_genome C (a_genome a) e ;;;
     process_samples C e (snd (barcode_settings (a_nobarcodes a))) d reg2)
      (mkWorld os2
         (w_log w ++ [EConvertToFilename (a_experiment a);
                      ESamplePrep (a_samples a) (negb (a_nobarcodes a));
                      ECreateDirs e])).
Proof.
  intros Ha Hc Hd Hprep Hdirs. unfold main, main_setup.
  rewrite bind_assoc. erewrite bind_ok_eq; [|unfold lift; by rewrite Ha].
  rewrite bind_assoc. erewrite bind_ok_eq; [|by apply call_eq].
  rewrite bind_assoc. erewrite bind_ok_eq; [|unfold lift; by rewrite Hd].
  rewrite <-barcode_settings_fst in *.
  destruct (barcode_settings (a_nobarcodes a)) as [qc bl]. simpl in *.
  rewrite bind_assoc. erewrite bind_ok_eq; [|by apply call_eq].
  rewrite bind_assoc. erewrite bind_ok_eq; [|by apply call_eq].
  simpl w_log. rewrite <-!app_assoc. simpl app.
  unfold bind.
  destruct (for_each _ _ _ _) as [[reg1|x] w3]; [|done].
  destruct (stage_reads _ _ _ _ _ _) as [[reg2|x] w4]; [|done].
  by destruct (prepare_genome _ _ _ _) as [[[]|x] w5].
Qed.



(** ** Loading the sample list, the directories, the paths *)

(** What [sample_prep_spec] returns: every entry holds its name and its
    barcode, and no path. *)
Lemma sample_prep_spec_entries (entries : list (string * string)) k s :
  alist_get k ((λ nb : string * string,
                  (nb.1, ({[ "name" := nb.1; "barcode" := nb.2 ]} : SampleRec)))
               <$> entries) = Some s ->
  s !! "name" = Some k /\ s !! "demultiplexedPath" = None /\
  s !! "trimmedPath" = None.
Proof.
  induction entries as [|[n b] entries IH]; simpl; [done|].
  destruct (decide (k = n)) as [->|Hne]; [|done].
  intros [= <-]. split_and!.
  - by rewrite lookup_insert_eq.
  - rewrite lookup_insert_ne by done. by rewrite lookup_singleton_ne.
  - rewrite lookup_insert_ne by done. by rewrite lookup_singleton_ne.
Qed.

(** C7.  [main] reads the sample list, then has the directories created,
    and only then adds the two path fields to every entry.  [reg0] is the
    registry that [sample_prep] returned and [os1] the machine as it left
    it.  Loaded as section 4.1 has it ([sample_prep_spec]), the machine is
    as it was before and no entry holds a path.  The directory bootstrap
    comes next, on [os1]: when it raises, [main] raises that exception
    with nothing added, even when an entry has no ['name'], which makes
    the loop of lines 92-100 raise.  When it returns, the loop runs on
    [reg0]: it touches neither the machine nor the log, and either raises,
    or gives [reg1], which holds for every sample the two paths built from
    its name, and the rest of the run goes on from [reg1]. *)
Theorem paths_attached_after_bootstrap (C : Collaborators) argv a e d os0
    reg0 os1 w r w' :
  parseArgs argv = Ok a ->
  convert_to_filename C (a_experiment a) (w_os w) = (Ok e, os0) ->
  py_float (float_of_str C) (a_disruption a) = Ok d ->
  sample_prep C (a_samples a) (negb (a_nobarcodes a)) os0 = (Ok reg0, os1) ->
  main C argv w = (r, w') ->
  let nb := a_nobarcodes a in
  let log1 := w_log w ++ [EConvertToFilename (a_experiment a);
                          ESamplePrep (a_samples a) (negb nb)] in
  (forall read_samples,
     (forall samples qc os,
        sample_prep C samples qc os
        = sample_prep_spec read_samples samples qc os) ->
     os1 = os0 /\
     forall k s, alist_get k reg0 = Some s ->
       s !! "name" = Some k /\ s !! "demultiplexedPath" = None /\
       s !! "trimmedPath" = None) /\
  exists rb os2,
    createExperimentDirectories C e os1 = (rb, os2) /\
    let w2 := mkWorld os2 (log1 ++ [ECreateDirs e]) in
    match rb with
    | Raise x => r = Raise x /\ w' = w2
    | Ok _ =>
        exists ra,
          for_each (keys reg0) (attach_paths_body e) reg0 w2 = (ra, w2) /\
          match ra with
          | Raise x => r = Raise x /\ w' = w2
          | Ok reg1 =>
              keys reg1 = keys reg0 /\
              (forall k s, alist_get k reg0 = Some s ->
                 exists nm, s !! "name" = Some nm /\
                   field reg1 k "demultiplexedPath"
                     = e +:+ "/raw_data/" +:+ nm +:+ ".fastq.gz" /\
                   field reg1 k "trimmedPath"
                     = e +:+ "/" +:+ nm +:+ "_trimmed.fastq") /\
              (reg2 <- stage_reads C nb (a_input a) e reg1 ;;
               prepare_genome C (a_genome a) e ;;;
               process_samples C e (snd (barcode_settings nb)) d reg2) w2
              = (r, w')
          end
    end.
Proof.
  intros Ha Hc Hd Hprep H. cbv zeta. split.
  { intros read_samples Hspec. rewrite Hspec in Hprep.
    unfold sample_prep_spec in Hprep.
    destruct (read_samples _ _ _) as [entries|x]; [|discriminate].
    injection Hprep as <- <-. split; [done|].
    apply sample_prep_spec_entries. }
  destruct (createExperimentDirectories C e os1) as [rb os2] eqn:Hdirs.
  exists rb, os2. split; [done|]. rewrite <-app_assoc. simpl app.
  destruct rb as [[]|x].
  - rewrite (main_from_line_92 C argv a e d os0 reg0 os1 os2) in H by done.
    destruct (for_each (keys reg0) (attach_paths_body e) reg0 _)
      as [ra w3] eqn:Hatt.
    pose proof Hatt as Hatt'. apply attach_all_spec in Hatt' as [-> Hspec].
    exists ra. split; [done|]. destruct ra as [reg1|x].
    + erewrite bind_ok_eq in H; [|exact Hatt].
      destruct (Hspec _ eq_refl) as [Hk _]. split_and!; [done| |done].
      intros k s Hs.
      destruct (attach_loop_fields _ _ _ _ _ _ _ Hatt Hs) as (nm & ? & ? & ?).
      eauto.
    + erewrite bind_raise_eq in H; [|exact Hatt]. by injection H as <- <-.
  - unfold main, main_setup in H.
    rewrite bind_assoc in H.
    erewrite bind_ok_eq in H; [|unfold lift; by rewrite Ha].
    rewrite bind_assoc in H. erewrite bind_ok_eq in H; [|by apply call_eq].
    rewrite bind_assoc in H.
    erewrite bind_ok_eq in H; [|unfold lift; by rewrite Hd].
    rewrite <-barcode_settings_fst in *.
    destruct (barcode_settings (a_nobarcodes a)) as [qc bl]. simpl in *.
    rewrite bind_assoc in H. erewrite bind_ok_eq in H; [|by apply call_eq].
    rewrite bind_assoc in H.
    erewrite bind_raise_eq in H; [|by apply call_eq].
    simpl in H. rewrite <-!app_assoc in H. simpl in H.
    by injection H as <- <-.
Qed.

(** ** The concrete installation *)

Lemma app_str_nil_r s : s +:+ "" = s.
Proof.
  induction s as [|c s IH]; [done|].
  change (String c (s +:+ "") = String c s). by rewrite IH.
Qed.

Lemma app_str_assoc a b c : (a +:+ b) +:+ c = a +:+ (b +:+ c).
Proof.
  induction a as [|x a IH]; [done|].
  change (String x ((a +:+ b) +:+ c) = String x (a +:+ (b +:+ c))).
  by rewrite IH.
Qed.

Lemma last_char_app a b : b <> "" -> last_char (a +:+ b) = last_char b.
Proof.
  intros Hb. induction a as [|c a IH]; [done|].
  simpl. destruct (a +:+ b) as [|c' s'] eqn:E.
  - destruct a; simpl in E; [by subst|discriminate].
  - by rewrite <-IH.
Qed.

(** The last component of a path that ends in [_bowtie.txt]. *)
Lemma components_snoc a :
  exists init l,
    components a = init ++ [l] /\
    components (a +:+ "_bowtie.txt") = init ++ [l +:+ "_bowtie.txt"].
Proof.
  induction a as [|c a (init & l & E1 & E2)].
  - by exists [], "".
  - change (String c a +:+ "_bowtie.txt")
      with (String c (a +:+ "_bowtie.txt")).
    cbn [components]. rewrite E1, E2.
    destruct (bool_decide (c = "/"%char)).
    + by exists ("" :: init), l.
    + destruct init as [|x xs].
      * by exists [], (String c l).
      * by exists (String c x :: xs), l.
Qed.

Lemma render_last_char x stack : x <> "" ->
  last_char (render (x :: stack)) = last_char x.
Proof.
  intros Hx. unfold render.
  assert (forall l acc, acc <> "" ->
            last_char (foldl (λ acc name, "/" +:+ name +:+ acc) acc l)
            = last_char acc) as Hfold.
  { induction l as [|y l IH]; intros acc Hacc; [done|]. simpl.
    rewrite IH by done. rewrite last_char_app by (by destruct y).
    by destruct y; [|apply (last_char_app (String _ _))]. }
  simpl. rewrite Hfold by done. rewrite app_str_nil_r.
  by apply (last_char_app "/").
Qed.

Lemma normal_form_last_char a :
  last_char (normal_form (a +:+ "_bowtie.txt")) = Some "t"%char.
Proof.
  destruct (components_snoc a) as (init & l & _ & E).
  unfold normal_form. rewrite E, foldl_app. simpl.
  assert (last_char (l +:+ "_bowtie.txt") = Some "t"%char) as Hl
    by (by rewrite last_char_app).
  unfold enter. rewrite decide_False.
  2:{ intros [E'|E']; rewrite E' in Hl; discriminate. }
  rewrite decide_False.
  2:{ intros E'; rewrite E' in Hl; discriminate. }
  rewrite render_last_char; [done|].
  intros E'; rewrite E' in Hl; discriminate.
Qed.

Lemma bowtie_output_last_char os sample :
  last_char (resolve os ("../" +:+ sample +:+ "_bowtie.txt")) = Some "t"%char.
Proof.
  unfold resolve, resolve_at.
  change (is_abs ("../" +:+ sample +:+ "_bowtie.txt")) with false. cbv iota.
  rewrite <-!app_str_assoc. apply normal_form_last_char.
Qed.

(** The stand-ins keep to the discipline of [tidy] for any set of files
    whose names end in [q], as those of the trimmed reads do. *)
Lemma demo_tidy names bad e bl d temps :
  (forall p, p ∈ temps -> last_char p = Some "q"%char) ->
  tidy (Demo.demo names bad) e bl d temps.
Proof.
  intros Hq. split.
  - intros inp out sample. split.
    + intros os. simpl. unfold Demo.from_to. by destruct (decide _).
    + intros os p. simpl. unfold Demo.from_to.
      destruct (decide _); simpl; [|auto].
      rewrite elem_of_union, elem_of_singleton. tauto.
  - intros sample os p Hp. simpl. destruct (decide _); simpl; [done|].
    rewrite elem_of_union, elem_of_singleton. intros [->|?]; [|done].
    apply Hq in Hp. by rewrite bowtie_output_last_char in Hp.
  - intros path. split; [done|]. by intros os p _.
  - intros sample. split; [done|]. by intros os p _.
Qed.

Lemma argv0_no_disruption v : ODisruption v ∉ Demo.argv0.
Proof.
  intros Hin. unfold Demo.argv0 in Hin.
  repeat (apply elem_of_cons in Hin as [Hin|Hin]; [discriminate|]).
  by apply elem_of_nil in Hin.
Qed.

(** The demultiplexer of the installation returns the registry it was
    handed. *)
Lemma demo_demultiplex_keeps names bad reads reg e os r os' :
  demultiplex_fastq (Demo.demo names bad) reads reg e os = (Ok r, os') ->
  r = reg.
Proof. simpl. destruct (decide _); congruence. Qed.

(** The run of the installation with two samples, when it reaches the
    per-sample loop. *)
Lemma demo_reaches_loop a e d reg0 reg1 reg w1 :
  reaches_loop Demo.two_samples Demo.argv0 Demo.w0 a e d reg0 reg1 reg w1 ->
  a = mkArgs "reads.fastq.gz" "samples.txt" "exp" "genome.gbk" (VFloat 1) false
  /\ e = "exp" /\ d = 1%float /\ keys reg0 = ["A"; "B"] /\
  keys reg = ["A"; "B"].
Proof.
  intros (w2 & w3 & (os0 & os1 & os2 & Ha & Hc & Hf & Hp & Hd & -> & Hatt)
          & Hst & _).
  change (parseArgs Demo.argv0) with
    (Ok (mkArgs "reads.fastq.gz" "samples.txt" "exp" "genome.gbk"
           (VFloat 1) false)) in Ha.
  injection Ha as <-.
  change (Ok "exp", Demo.os0) with (Ok e, os0) in Hc.
  injection Hc as <- <-.
  change (Ok 1%float = Ok d) in Hf. injection Hf as <-.
  assert (sample_prep Demo.two_samples "samples.txt" true Demo.os0
          = (Ok (Demo.registry_of ["A"; "B"]), Demo.os0)) as E
    by (vm_compute; reflexivity).
  change (sample_prep Demo.two_samples "samples.txt" true Demo.os0
          = (Ok reg0, os1)) in Hp.
  rewrite E in Hp. injection Hp as <- <-.
  apply attach_all_spec in Hatt as [_ Hatt].
  destruct (Hatt _ eq_refl) as [Hk _].
  unfold stage_reads in Hst. cbv iota in Hst.
  apply call_inv in Hst as [Hst _].
  apply demo_demultiplex_keeps in Hst as ->.
  split_and!; [reflexivity|reflexivity|reflexivity|reflexivity|].
  rewrite Hk. reflexivity.
Qed.

(** ** The claims at concrete runs *)

Lemma samples_processed_sequentially_witness :
  exists a e d reg0 reg1 reg w1 t gm,
    reaches_loop Demo.two_samples Demo.argv0 Demo.w0 a e d reg0 reg1 reg w1 /\
    keys reg = ["A"; "B"] /\
    w_log (snd (main Demo.two_samples Demo.argv0 Demo.w0)) = w_log w1 ++ t /\
    t = (keys reg ≫=
           sample_steps e (snd (barcode_settings (a_nobarcodes a))) d reg)
          ++ [EBuildGeneTable organism reg gm e].
Proof.
  assert (main Demo.two_samples Demo.argv0 Demo.w0
          = (Ok tt, snd (main Demo.two_samples Demo.argv0 Demo.w0))) as H
    by (vm_compute; reflexivity).
  destruct (samples_processed_sequentially Demo.two_samples Demo.argv0
              Demo.w0 (Ok tt) (snd (main Demo.two_samples Demo.argv0 Demo.w0))
              H)
    as [(x & pre & _ & Hr & _)
       |(a & e & d & reg0 & reg1 & reg & w1 & t & gm & Hloop & _ & _ & _ & _
         & L & _ & E)].
  - discriminate Hr.
  - exists a, e, d, reg0, reg1, reg, w1, t, gm.
    split; [exact Hloop|]. split.
    + exact (proj2 (proj2 (proj2 (proj2
               (demo_reaches_loop a e d reg0 reg1 reg w1 Hloop))))).
    + split; [exact L|exact (proj1 (E eq_refl))].
Defined.


Lemma default_disruption_is_one_witness :
  exists a e reg0 reg1 reg w1 t,
    reaches_loop Demo.two_samples Demo.argv0 Demo.w0 a e 1%float reg0 reg1
      reg w1 /\
    w_log (snd (main Demo.two_samples Demo.argv0 Demo.w0)) = w_log w1 ++ t /\
    omap gene_call t = [("A", 1%float); ("B", 1%float)].
Proof.
  assert (main Demo.two_samples Demo.argv0 Demo.w0
          = (Ok tt, snd (main Demo.two_samples Demo.argv0 Demo.w0))) as H
    by (vm_compute; reflexivity).
  destruct (default_disruption_is_one Demo.two_samples Demo.argv0
              Demo.w0 (Ok tt) (snd (main Demo.two_samples Demo.argv0 Demo.w0))
              argv0_no_disruption H)
    as [(x & pre & _ & Hr & _)
       |(a & e & reg0 & reg1 & reg & w1 & t & _ & Hloop & _ & _ & _ & _ & L
         & _ & E)].
  - discriminate Hr.
  - exists a, e, reg0, reg1, reg, w1, t.
    split; [exact Hloop|]. split; [exact L|].
    rewrite (E eq_refl).
    rewrite (proj2 (proj2 (proj2 (proj2
               (demo_reaches_loop a e 1%float reg0 reg1 reg w1 Hloop))))).
    reflexivity.
Defined.


Lemma paths_attached_after_bootstrap_witness :
  let C := DemoMore.spec_loader in
  let reg0 := [Demo.entry "A" "ACGT"; Demo.entry "B" "TTTT"] in
  sample_prep C "samples.txt" true Demo.os0 = (Ok reg0, Demo.os0) /\
  (forall k s, alist_get k reg0 = Some s -> s !! "trimmedPath" = None) /\
  exists os2 reg1,
    createExperimentDirectories C "exp" Demo.os0 = (Ok tt, os2) /\
    keys reg1 = keys reg0 /\
    field reg1 "A" "trimmedPath" = "exp/A_trimmed.fastq".
Proof.
  intros C reg0.
  pose (a := mkArgs "reads.fastq.gz" "samples.txt" "exp" "genome.gbk"
               (VFloat 1) false).
  pose (run := main C Demo.argv0 Demo.w0).
  assert (sample_prep C (a_samples a) (negb (a_nobarcodes a)) Demo.os0
          = (Ok reg0, Demo.os0)) as Hprep by (vm_compute; reflexivity).
  destruct (paths_attached_after_bootstrap C Demo.argv0 a "exp" 1%float
              Demo.os0 reg0 Demo.os0 Demo.w0 (fst run) (snd run)
              eq_refl eq_refl eq_refl Hprep (surjective_pairing run))
    as [Hload (rb & os2 & Hdirs & Hrest)].
  split; [exact Hprep|]. split.
  - intros k s Hs.
    exact (proj2 (proj2 (proj2 (Hload DemoMore.read_two
                                  (λ _ _ _, eq_refl)) k s Hs))).
  - assert (createExperimentDirectories C "exp" Demo.os0
            = (Ok tt, snd (createExperimentDirectories C "exp" Demo.os0)))
      as Ed by reflexivity.
    rewrite Ed in Hdirs. injection Hdirs as <- <-.
    destruct Hrest as (ra & Hatt & Hrest).
    assert (is_ok ra = true) as Hok.
    { destruct (attach_loop_ok "exp" (keys reg0) reg0
                  (mkWorld (snd (createExperimentDirectories C "exp" Demo.os0))
                     ((w_log Demo.w0 ++
                         [EConvertToFilename (a_experiment a);
                          ESamplePrep (a_samples a) (negb (a_nobarcodes a))])
                        ++ [ECreateDirs "exp"])))
        as [reg1 E1].
      - intros k Hk.
        repeat (apply elem_of_cons in Hk as [->|Hk];
                [eexists; split; [reflexivity|by eexists]|]).
        destruct (proj1 (elem_of_nil _) Hk).
      - injection (eq_trans (eq_sym E1) Hatt) as <-. reflexivity. }
    destruct ra as [reg1|x]; [|discriminate Hok].
    destruct Hrest as (Hk & Hf & _).
    exists (snd (createExperimentDirectories C "exp" Demo.os0)), reg1.
    split; [reflexivity|]. split; [exact Hk|].
    destruct (Hf "A" (Demo.entry "A" "ACGT").2 eq_refl)
      as (nm & Hn & _ & Ht).
    assert (nm = "A") as -> by (vm_compute in Hn; congruence).
    exact Ht.
Defined.


Lemma aligner_failure_aborts_run_witness :
  let C := Demo.aligner_fails_on_A in
  exists x' w',
    process_samples C "exp" 4 1 (Demo.reg_ready C) (Demo.w_ready C)
      = (Raise x', w') /\
    x' = ExternalError "bowtie".
Proof.
  intros C.
  pose (reg := Demo.reg_ready C). pose (w := Demo.w_ready C).
  pose (s := default ∅ (alist_get "A" reg)).
  pose (inp := field reg "A" "demultiplexedPath").
  pose (out := field reg "A" "trimmedPath").
  pose (osa := snd (trim_fastq C inp out "A" 4 (w_os w))).
  pose (osb := snd (os_chdir (expanduser C (genomeDir "exp")) osa)).
  pose (osc := snd (bowtieMap C organism ("../" +:+ "A" +:+ "_trimmed.fastq")
                      ("../" +:+ "A" +:+ "_bowtie.txt") osb)).
  assert (keys reg = [] ++ "A" :: ["B"]) as Hk by (vm_compute; reflexivity).
  assert (sample_loop C "exp" 4 1 reg [] [] w = (Ok [], w)) as Hdone
    by reflexivity.
  assert (reg_get reg "A" = Ok s) as Hs by (vm_compute; reflexivity).
  assert (dict_get s "demultiplexedPath" = Ok inp) as Hi
    by (vm_compute; reflexivity).
  assert (dict_get s "trimmedPath" = Ok out) as Ho
    by (vm_compute; reflexivity).
  assert (trim_fastq C inp out "A" 4 (w_os w) = (Ok tt, osa)) as Htrim
    by (vm_compute; reflexivity).
  assert (os_chdir (expanduser C (genomeDir "exp")) osa = (Ok tt, osb)) as Hcd
    by (vm_compute; reflexivity).
  assert (bowtieMap C organism ("../" +:+ "A" +:+ "_trimmed.fastq")
            ("../" +:+ "A" +:+ "_bowtie.txt") osb
          = (Raise (ExternalError "bowtie"), osc)) as Hmap
    by (vm_compute; reflexivity).
  assert (resolve osc (cwd osa) ∈ dirs osc) as Hdir
    by (apply (bool_decide_eq_true_1 _); vm_compute; reflexivity).
  destruct (aligner_failure_aborts_run C "exp" 4 1 reg [] "A" ["B"] [] w w
              s inp out osa osb osc (ExternalError "bowtie")
              Hk Hdone Hs Hi Ho Htrim Hcd Hmap) as (x' & w' & Hrun & _ & Hx).
  exists x', w'. split; [exact Hrun|exact (Hx Hdir)].
Defined.

Lemma trimmed_files_removed_witness :
  let C := Demo.aligner_fails_on_B in
  let reg := Demo.reg_ready C in
  let w := Demo.w_ready C in
  let run := sample_loop C "exp" 4 1 reg (["A"] ++ ["B"]) [] w in
  fst run = Raise (ExternalError "bowtie") /\
  (trimmed_file reg (cwd (w_os w)) "A" ∉ files (w_os (snd run))).
Proof.
  intros C reg w run.
  split; [vm_compute; reflexivity|].
  pose (first := sample_loop C "exp" 4 1 reg ["A"] [] w).
  pose (gm1 := match fst first with Ok g => g | Raise _ => [] end).
  assert (canonical (cwd (w_os w))) as Habs by (vm_compute; reflexivity).
  assert (trimmed_file reg (cwd (w_os w)) <$> (["A"] ++ ["B"])
          = ["/work/exp/A_trimmed.fastq"; "/work/exp/B_trimmed.fastq"]) as E
    by (vm_compute; reflexivity).
  assert (NoDup (trimmed_file reg (cwd (w_os w)) <$> (["A"] ++ ["B"]))) as Hnd.
  { rewrite E. apply (bool_decide_eq_true_1 _). vm_compute. reflexivity. }
  assert (tidy C "exp" 4 1
            (trimmed_file reg (cwd (w_os w)) <$> (["A"] ++ ["B"]))) as Htidy.
  { rewrite E. apply demo_tidy. intros p Hp.
    repeat (apply elem_of_cons in Hp as [->|Hp]; [reflexivity|]).
    destruct (proj1 (elem_of_nil _) Hp). }
  assert (sample_loop C "exp" 4 1 reg ["A"] [] w = (Ok gm1, snd first))
    as Hdone by (vm_compute; reflexivity).
  assert ("A" ∈ ["A"]) as Hin by (apply elem_of_cons; auto).
  exact (proj2 (proj2 (trimmed_files_removed C "exp" 4 1 reg ["A"] ["B"] []
                         w gm1 (snd first) (fst run) (snd run) Habs Hnd Htidy
                         Hdone (surjective_pairing run)) "A" Hin)).
Defined.

(** * Further properties of the script *)

(** ** The command line *)






(** X2.  When the value given with [-d] is not a number, [float] raises
    [ValueError] at line 69.  By then [main] has made one call, that of
    [convert_to_filename] at line 65: the sample list has not been read and
    nothing else has been called.  When [convert_to_filename] itself
    raises, its exception is the one that escapes. *)
Theorem bad_disruption_raises_at_float (C : Collaborators) argv a v w rc os0 :
  parseArgs argv = Ok a ->
  a_disruption a = VStr v ->
  float_of_str C v = None ->
  convert_to_filename C (a_experiment a) (w_os w) = (rc, os0) ->
  main C argv w
  = (match rc with Ok _ => Raise ValueError | Raise x => Raise x end,
     mkWorld os0 (w_log w ++ [EConvertToFilename (a_experiment a)])).
Proof.
  intros Ha Hv Hf Hc. unfold main, main_setup.
  rewrite bind_assoc. erewrite bind_ok_eq; [|unfold lift; by rewrite Ha].
  rewrite bind_assoc. destruct rc as [e|x].
  - erewrite bind_ok_eq; [|by apply call_eq].
    rewrite bind_assoc. erewrite bind_raise_eq; [done|].
    unfold lift, py_float. by rewrite Hv, Hf.
  - erewrite bind_raise_eq; [done|]. by apply call_eq.
Qed.

Lemma bad_disruption_raises_at_float_witness :
  fst (main Demo.two_samples (Demo.argv0 ++ [ODisruption "half"]) Demo.w0)
    = Raise ValueError /\
  w_log (snd (main Demo.two_samples (Demo.argv0 ++ [ODisruption "half"])
                Demo.w0))
    = [EConvertToFilename "exp"].
Proof.
  rewrite (bad_disruption_raises_at_float Demo.two_samples
             (Demo.argv0 ++ [ODisruption "half"])
             (mkArgs "reads.fastq.gz" "samples.txt" "exp" "genome.gbk"
                (VStr "half") false)
             "half" Demo.w0 (Ok "exp") Demo.os0
             eq_refl eq_refl eq_refl eq_refl).
  split; reflexivity.
Defined.

(** X3.  Whatever number [float] reads from the value of [-d], in the unit
    interval or not, that number is what [mapGenes] is given.  A run either
    stops before the per-sample loop, and has not called [mapGenes]; or it
    reaches line 124 with that number and the registry [reg], and from
    there the calls of [mapGenes] are, in order, one call with that number
    for each sample of [reg]: all of them when [main] returns, an initial
    part when a sample raises. *)
Theorem disruption_passed_through (C : Collaborators) argv a x w r w' :
  parseArgs argv = Ok a ->
  py_float (float_of_str C) (a_disruption a) = Ok x ->
  main C argv w = (r, w') ->
  (exists y pre,
     main_setup C argv w = (Raise y, w') /\ r = Raise y /\
     w_log w' = w_log w ++ pre /\ omap gene_call pre = []) \/
  (exists e reg0 reg1 reg w1 t,
     reaches_loop C argv w a e x reg0 reg1 reg w1 /\
     keys reg1 = keys reg0 /\
     (a_nobarcodes a = true -> reg = reg1) /\
     w_log w1 = w_log w ++ setup_steps a e reg1 /\
     omap gene_call (setup_steps a e reg1) = [] /\
     w_log w' = w_log w1 ++ t /\
     omap gene_call t `prefix_of` (λ sample, (sample, x)) <$> keys reg /\
     (is_ok r = true ->
        omap gene_call t = (λ sample, (sample, x)) <$> keys reg)).
Proof.
  intros Ha Hx H. apply main_cases in H
    as [(y & H & ->)
       |(a' & e & d & reg0 & reg1 & reg & w1 & Hloop & Hatt & Hnb & L & H)].
  - left. pose proof H as H'.
    apply setup_raise_facts in H' as (pre & Lp & _ & _ & _ & G).
    exists y, pre. done.
  - right. pose proof Hloop as (_ & _ & (_ & _ & _ & Ha' & _ & Hf & _) & _).
    rewrite Ha in Ha'. injection Ha' as <-.
    rewrite Hx in Hf. injection Hf as <-.
    apply process_samples_log in H as (t & gm & L2 & P & E).
    exists e, reg0, reg1, reg, w1, t.
    split_and!; try done.
    + by destruct Hatt.
    + apply gene_calls_setup.
    + by eapply gene_calls_of_loop.
    + intros Hr. rewrite (E Hr). apply gene_calls_of_whole_loop.
Qed.

Lemma disruption_passed_through_witness :
  let argv := Demo.argv0 ++ [ODisruption "0.25"] in
  let a := mkArgs "reads.fastq.gz" "samples.txt" "exp" "genome.gbk"
             (VStr "0.25") false in
  exists e reg0 reg1 reg w1 t,
    reaches_loop Demo.two_samples argv Demo.w0 a e 0.25%float reg0 reg1 reg w1
    /\
    w_log (snd (main Demo.two_samples argv Demo.w0)) = w_log w1 ++ t /\
    omap gene_call t = (λ sample, (sample, 0.25%float)) <$> keys reg.
Proof.
  intros argv a.
  assert (main Demo.two_samples argv Demo.w0
          = (Ok tt, snd (main Demo.two_samples argv Demo.w0)))
    as H by (vm_compute; reflexivity).
  destruct (disruption_passed_through Demo.two_samples argv a
              0.25%float Demo.w0 (Ok tt)
              (snd (main Demo.two_samples argv Demo.w0)) eq_refl eq_refl H)
    as [(y & pre & _ & Hr & _)
       |(e & reg0 & reg1 & reg & w1 & t & Hloop & _ & _ & _ & _ & L & _ & E)].
  - discriminate Hr.
  - exists e, reg0, reg1, reg, w1, t.
    split; [exact Hloop|]. split; [exact L|exact (E eq_refl)].
Defined.

(** ** The [cd] context manager at its edges *)

(** X4.  When the directory to change to does not exist, [__enter__]
    raises: the body of the [with] block is not run, [__exit__] is not run,
    and the machine and the log are as they were. *)
Theorem cd_enter_failure_skips_body (C : Collaborators) {A} newPath
    (body : M A) w :
  resolve (w_os w) (expanduser C newPath) ∉ dirs (w_os w) ->
  cd C newPath body w = (Raise (FileNotFoundError (expanduser C newPath)), w).
Proof.
  intros Hn. unfold cd, chdir, os_chdir.
  rewrite decide_False by done. by destruct w.
Qed.

Lemma cd_enter_failure_skips_body_witness :
  cd Demo.two_samples "nowhere/genome_lookup/"
     (call (EBowtieBuild organism) (bowtieBuild Demo.two_samples organism))
     Demo.w1
  = (Raise (FileNotFoundError "nowhere/genome_lookup/"), Demo.w1).
Proof.
  apply (cd_enter_failure_skips_body Demo.two_samples "nowhere/genome_lookup/").
  apply (bool_decide_eq_false_1 _). vm_compute. reflexivity.
Defined.

(** X5.  When the directory saved on entry no longer exists as the block
    is left, [os.chdir] in [__exit__] raises: the block raises that error
    whatever its body did, a value the body returned or an exception it
    raised is lost, and the process stays in the directory the body left
    it in. *)
Theorem cd_exit_failure_replaces_outcome (C : Collaborators) {A} newPath
    (body : M A) w w1 rb w2 :
  chdir (expanduser C newPath) w = (Ok tt, w1) ->
  body w1 = (rb, w2) ->
  resolve (w_os w2) (cwd (w_os w)) ∉ dirs (w_os w2) ->
  cd C newPath body w = (Raise (FileNotFoundError (cwd (w_os w))), w2).
Proof.
  intros H1 H2 Hn. unfold cd. rewrite H1, H2.
  unfold chdir, os_chdir.
  rewrite decide_False by done. by destruct w2.
Qed.

Lemma cd_exit_failure_replaces_outcome_witness :
  let body : M nat := fun w =>
    (Ok 7, mkWorld (mkOS (cwd (w_os w)) (dirs (w_os w) ∖ {[ "/work" ]})
                         (files (w_os w))) (w_log w)) in
  fst (cd Demo.two_samples "exp/genome_lookup/" body Demo.w1)
    = Raise (FileNotFoundError "/work") /\
  cwd (w_os (snd (cd Demo.two_samples "exp/genome_lookup/" body Demo.w1)))
    = "/work/exp/genome_lookup".
Proof.
  intros body.
  pose (wa := snd (chdir "exp/genome_lookup/" Demo.w1)).
  assert (chdir (expanduser Demo.two_samples "exp/genome_lookup/") Demo.w1
          = (Ok tt, wa)) as H1 by (vm_compute; reflexivity).
  assert (resolve (w_os (snd (body wa))) (cwd (w_os Demo.w1))
            ∉ dirs (w_os (snd (body wa)))) as Hn
    by (apply (bool_decide_eq_false_1 _); vm_compute; reflexivity).
  rewrite (cd_exit_failure_replaces_outcome Demo.two_samples
             "exp/genome_lookup/" body Demo.w1 wa (fst (body wa))
             (snd (body wa)) H1 (surjective_pairing _) Hn).
  split; reflexivity.
Defined.

(** ** The path fields (lines 92-100) *)

(** X6.  When the loop of lines 92-100 completes, the registry has the
    same samples in the same order; every entry had a ['name'], and now
    holds [<experiment>/raw_data/<name>.fastq.gz] under
    ['demultiplexedPath'] and [<experiment>/<name>_trimmed.fastq] under
    ['trimmedPath'], whatever it held there before; every other field of
    the entry, the barcode among them, is as it was.  The loop touches
    neither the machine nor the log. *)
Theorem path_fields_attached e (reg : Registry) w reg' w' :
  for_each (keys reg) (attach_paths_body e) reg w = (Ok reg', w') ->
  w' = w /\ keys reg' = keys reg /\
  forall k s, alist_get k reg = Some s ->
    exists nm s',
      s !! "name" = Some nm /\ alist_get k reg' = Some s' /\
      s' !! "demultiplexedPath"
        = Some (e +:+ "/raw_data/" +:+ nm +:+ ".fastq.gz") /\
      s' !! "trimmedPath" = Some (e +:+ "/" +:+ nm +:+ "_trimmed.fastq") /\
      forall f, f <> "demultiplexedPath" -> f <> "trimmedPath" ->
        s' !! f = s !! f.
Proof.
  intros H. pose proof (attach_loop_names _ _ _ _ _ _ H) as Hnames.
  apply attach_all_spec in H as [-> Hatt].
  destruct (Hatt _ eq_refl) as [Hk Hg].
  split_and!; [done|done|]. intros k s Hs.
  destruct (Hnames k (alist_get_Some_keys _ _ _ Hs)) as (s0 & nm & Hs0 & Hn).
  rewrite Hs in Hs0. injection Hs0 as <-.
  exists nm, (attach_entry e s).
  split_and!; [done|by rewrite Hg, Hs| | |]; unfold attach_entry; rewrite Hn.
  - rewrite lookup_insert_ne by done. by rewrite lookup_insert_eq.
  - by rewrite lookup_insert_eq.
  - intros f Hf1 Hf2. by rewrite !lookup_insert_ne.
Qed.

Lemma path_fields_attached_witness :
  exists reg',
    keys reg' = ["A"; "B"] /\
    field reg' "B" "trimmedPath" = "exp/B_trimmed.fastq" /\
    field reg' "B" "barcode" = "TTTT".
Proof.
  pose (reg := Demo.registry_of ["A"; "B"]).
  pose (run := for_each (keys reg) (attach_paths_body "exp") reg
                DemoMore.bare).
  pose (reg' := match fst run with Ok r => r | Raise _ => [] end).
  assert (run = (Ok reg', snd run)) as H by (vm_compute; reflexivity).
  destruct (path_fields_attached "exp" reg DemoMore.bare reg' (snd run) H)
    as (_ & Hk & Hf).
  exists reg'. split; [exact Hk|].
  destruct (Hf "B" (Demo.entry "B" "TTTT").2 eq_refl)
    as (nm & s' & Hn & Hs' & _ & Ht & Ho).
  assert (nm = "B") as -> by (vm_compute in Hn; congruence).
  unfold field. rewrite Hs'. simpl.
  rewrite Ht, (Ho "barcode") by done. split; reflexivity.
Defined.

Lemma attach_loop_missing_name e ks (reg : Registry) w k s :
  k ∈ ks ->
  (forall k', k' ∈ ks -> is_Some (alist_get k' reg)) ->
  alist_get k reg = Some s -> s !! "name" = None ->
  for_each ks (attach_paths_body e) reg w = (Raise (KeyError "name"), w).
Proof.
  revert reg. induction ks as [|x ks IH]; intros reg Hk Hall Hs Hn.
  - destruct (proj1 (elem_of_nil _) Hk).
  - destruct (Hall x) as [sx Sx]; [apply elem_of_cons; auto|].
    destruct (sx !! "name") as [nx|] eqn:Nx.
    + destruct (attach_paths_body_ok e reg x sx w Sx) as [reg1 H1]; [eauto|].
      pose proof H1 as H1'.
      apply attach_paths_body_spec in H1' as [_ Hspec].
      destruct (Hspec _ eq_refl) as (_ & Gx & Go).
      assert (k <> x) as Hne by (intros ->; congruence).
      simpl. erewrite bind_ok_eq; [|exact H1].
      apply IH.
      * apply elem_of_cons in Hk as [?|?]; done.
      * intros k' Hk'. destruct (decide (k' = x)) as [->|Hne'].
        -- rewrite Gx, Sx. by eexists.
        -- rewrite Go by done. apply Hall, elem_of_cons. auto.
      * by rewrite Go.
      * done.
    + simpl. erewrite bind_raise_eq; [done|].
      unfold attach_paths_body, reg_get, dict_get, bind, lift.
      by rewrite Sx, Nx.
Qed.

(** X7.  When an entry of the registry that [sample_prep] returns has no
    ['name'], [main] raises [KeyError] for ['name'] in the loop of lines
    92-100: the experiment directories have been created by then, and no
    read is staged, no genome file is written and no sample is
    processed. *)
Theorem missing_name_raises_KeyError (C : Collaborators) argv a e d w
    os0 reg0 os1 os2 k s :
  parseArgs argv = Ok a ->
  convert_to_filename C (a_experiment a) (w_os w) = (Ok e, os0) ->
  py_float (float_of_str C) (a_disruption a) = Ok d ->
  sample_prep C (a_samples a) (negb (a_nobarcodes a)) os0
    = (Ok reg0, os1) ->
  createExperimentDirectories C e os1 = (Ok tt, os2) ->
  alist_get k reg0 = Some s -> s !! "name" = None ->
  main C argv w
  = (Raise (KeyError "name"),
     mkWorld os2
       (w_log w ++ [EConvertToFilename (a_experiment a);
                    ESamplePrep (a_samples a) (negb (a_nobarcodes a));
                    ECreateDirs e])).
Proof.
  intros Ha Hc Hd Hprep Hdirs Hs Hn.
  rewrite (main_from_line_92 C argv a e d os0 reg0 os1 os2) by done.
  erewrite bind_raise_eq; [done|].
  eapply attach_loop_missing_name; [| |exact Hs|exact Hn].
  - by eapply alist_get_Some_keys.
  - intros k'. apply alist_get_keys_Some.
Qed.

Lemma missing_name_raises_KeyError_witness :
  fst (main DemoMore.nameless Demo.argv0 Demo.w0) = Raise (KeyError "name") /\
  ev_tag <$> w_log (snd (main DemoMore.nameless Demo.argv0 Demo.w0))
    = ["convert_to_filename"; "sample_prep"; "createExperimentDirectories"].
Proof.
  pose (os2 := snd (createExperimentDirectories DemoMore.nameless "exp"
                      Demo.os0)).
  assert (createExperimentDirectories DemoMore.nameless "exp" Demo.os0
          = (Ok tt, os2)) as Hdirs by reflexivity.
  rewrite (missing_name_raises_KeyError DemoMore.nameless Demo.argv0
             (mkArgs "reads.fastq.gz" "samples.txt" "exp" "genome.gbk"
                (VFloat 1) false)
             "exp" 1%float Demo.w0 Demo.os0 DemoMore.nameless_registry
             Demo.os0 os2 "A" {[ "barcode" := "ACGT" ]}
             eq_refl eq_refl eq_refl eq_refl Hdirs eq_refl eq_refl).
  split; reflexivity.
Defined.

(** ** What a run never does *)

Lemma prefix_app_cases {A} (t l m : list A) :
  t `prefix_of` l ++ m ->
  t `prefix_of` l \/ exists t', t = l ++ t' /\ t' `prefix_of` m.
Proof.
  revert t. induction l as [|a l IH]; intros t H.
  - right. by exists t.
  - destruct t as [|x t]; [left; apply prefix_nil|].
    simpl in H. pose proof (prefix_cons_inv_1 _ _ _ _ H) as ->.
    apply prefix_cons_inv_2, IH in H as [H|(t' & -> & H)].
    + left. by apply prefix_cons.
    + right. by exists t'.
Qed.

Lemma prefix_singleton_cases {A} (t : list A) b :
  t `prefix_of` [b] -> t = [] \/ t = [b].
Proof.
  destruct t as [|x t]; [auto|]. intros H.
  pose proof (prefix_cons_inv_1 _ _ _ _ H) as ->.
  apply prefix_cons_inv_2, prefix_nil_inv in H as ->. auto.
Qed.

(** X8.  The gene table is never built from part of the samples: in any
    run, whether [main] returns or raises, if [buildGeneTable] is called
    at all then it is the last call made, it is made once, and before it
    every sample of the registry has gone through all of its steps, in
    registry order. *)
Theorem table_built_only_after_all_samples (C : Collaborators) argv w r w' :
  main C argv w = (r, w') ->
  exists t, w_log w' = w_log w ++ t /\
    forall ev, ev ∈ t -> ev_tag ev = "buildGeneTable" ->
      exists pre reg e bl d gm,
        ev = EBuildGeneTable organism reg gm e /\
        Forall (λ ev', ev_tag ev' <> "buildGeneTable") pre /\
        t = pre ++ (keys reg ≫= sample_steps e bl d reg) ++ [ev].
Proof.
  intros H. apply main_trace in H.
  destruct (parseArgs argv) as [a|x].
  2:{ destruct H as [-> ->]. exists []. rewrite app_nil_r. split; [done|].
      intros ev Hev. destruct (proj1 (elem_of_nil _) Hev). }
  destruct H as (t & e & d & reg1 & reg2 & gm & L & P & _ & _).
  exists t. split; [done|]. intros ev Hev Htag.
  set (bl := snd (barcode_settings (a_nobarcodes a))) in *.
  assert (Forall (λ ev', ev_tag ev' <> "buildGeneTable") (setup_steps a e reg1))
    as Fpre.
  { eapply Forall_impl; [apply setup_steps_no_sample_event|].
    intros ev' Hev'. by destruct (not_sample_event_tag _ Hev'). }
  assert (forall ev', ev' ∈ setup_steps a e reg1 ++ loop_steps e bl d reg2 ->
            ev_tag ev' <> "buildGeneTable") as Hfront.
  { intros ev' [Hin|Hin]%elem_of_app.
    - by eapply Forall_forall in Hin; [|exact Fpre].
    - apply elem_of_loop_steps in Hin as (sample & _ & Hin).
      by eapply sample_steps_tag. }
  unfold schedule in P. fold bl in P. rewrite app_assoc in P.
  apply prefix_app_cases in P as [P|(t' & -> & P)].
  { destruct (Hfront ev); [|done]. by eapply elem_of_prefix. }
  apply prefix_singleton_cases in P as [->| ->].
  { rewrite app_nil_r in Hev. by destruct (Hfront ev). }
  apply elem_of_app in Hev as [Hev|Hev]; [by destruct (Hfront ev)|].
  apply list_elem_of_singleton in Hev as ->.
  exists (setup_steps a e reg1), reg2, e, bl, d, gm.
  split_and!; [done|done|]. by rewrite <-app_assoc.
Qed.

Lemma table_built_only_after_all_samples_witness :
  exists t,
    w_log (snd (main Demo.two_samples Demo.argv0 Demo.w0))
      = w_log Demo.w0 ++ t /\
    calls_of "buildGeneTable" t = 1.
Proof.
  assert (main Demo.two_samples Demo.argv0 Demo.w0
          = (Ok tt, snd (main Demo.two_samples Demo.argv0 Demo.w0))) as H
    by (vm_compute; reflexivity).
  destruct (table_built_only_after_all_samples Demo.two_samples Demo.argv0
              Demo.w0 (Ok tt) _ H) as (t & L & _).
  exists t. split; [exact L|].
  assert (t = w_log (snd (main Demo.two_samples Demo.argv0 Demo.w0))) as ->
    by (rewrite L; reflexivity).
  vm_compute. reflexivity.
Defined.

Lemma removes_follow_trims e bl d reg b ks t :
  ev_tag b <> "os.remove" ->
  t `prefix_of` (ks ≫= sample_steps e bl d reg) ++ [b] ->
  forall p, ERemove p ∈ t ->
    exists inp sample, ETrim inp p sample bl ∈ t.
Proof.
  intros Hb. revert t. induction ks as [|k ks IH]; intros t P p Hp.
  - apply prefix_singleton_cases in P as [->| ->].
    + destruct (proj1 (elem_of_nil _) Hp).
    + apply list_elem_of_singleton in Hp as <-. done.
  - rewrite bind_cons, <-app_assoc in P.
    apply prefix_app_cases in P as [P|(t' & -> & P)].
    + destruct P as [rest E]. unfold sample_steps in E.
      destruct t as [|x1 [|x2 [|x3 t3]]]; simplify_eq/=.
      * destruct (proj1 (elem_of_nil _) Hp).
      * apply list_elem_of_singleton in Hp. discriminate.
      * do 2 (apply elem_of_cons in Hp as [Hp|Hp]; [discriminate|]).
        destruct (proj1 (elem_of_nil _) Hp).
      * do 2 (apply elem_of_cons in Hp as [Hp|Hp]; [discriminate|]).
        apply elem_of_cons in Hp as [[= ->]|Hp].
        -- eexists _, _. apply elem_of_cons. auto.
        -- assert (ERemove p ∈ t3 ++ rest) as Hin
             by (apply elem_of_app; auto).
           match goal with E : _ = t3 ++ rest |- _ => rewrite <-E in Hin end.
           do 2 (apply elem_of_cons in Hin as [Hin|Hin]; [discriminate|]).
           destruct (proj1 (elem_of_nil _) Hin).
    + apply elem_of_app in Hp as [Hp|Hp].
      * unfold sample_steps in Hp.
        do 2 (apply elem_of_cons in Hp as [Hp|Hp]; [discriminate|]).
        apply elem_of_cons in Hp as [[= ->]|Hp].
        -- eexists _, _. apply elem_of_app. left. apply elem_of_cons. auto.
        -- do 2 (apply elem_of_cons in Hp as [Hp|Hp]; [discriminate|]).
           destruct (proj1 (elem_of_nil _) Hp).
      * destruct (IH _ P _ Hp) as (inp & sample & Hin).
        exists inp, sample. apply elem_of_app. auto.
Qed.

Lemma setup_steps_no_remove a e reg1 t p :
  t `prefix_of` setup_steps a e reg1 -> ERemove p ∉ t.
Proof.
  intros P Hin. eapply elem_of_prefix in Hin; [|exact P].
  eapply Forall_forall in Hin; [|apply setup_steps_no_sample_event]. done.
Qed.

(** In an initial part of the schedule every path removed has been handed
    to the trimmer as the file to write. *)
Lemma schedule_removes_follow_trims a e d reg1 reg2 gm t p :
  t `prefix_of` schedule a e d reg1 reg2 gm ->
  ERemove p ∈ t ->
  exists inp sample bl, ETrim inp p sample bl ∈ t.
Proof.
  intros P Hp. unfold schedule, loop_steps in P.
  apply prefix_app_cases in P as [P|(t' & -> & P)].
  { by destruct (setup_steps_no_remove _ _ _ _ p P). }
  apply elem_of_app in Hp as [Hp|Hp].
  { by destruct (setup_steps_no_remove a e reg1 (setup_steps a e reg1) p). }
  eapply removes_follow_trims in P as (inp & sample & Hin); [|done|exact Hp].
  eexists inp, sample, _. apply elem_of_app. right. exact Hin.
Qed.

(** X12.  In any run, every path [main] hands to [os.remove] is a path it
    has handed before, in the same run, to [trim_fastq] as the file to
    write: wherever a call of [os.remove] stands in the log, a call of
    [trim_fastq] with that output path stands before it.  [main] removes
    trimmed-read files and nothing else. *)
Theorem only_trimmed_outputs_removed (C : Collaborators) argv w r w' :
  main C argv w = (r, w') ->
  exists t, w_log w' = w_log w ++ t /\
    forall t1 p t2, t = t1 ++ ERemove p :: t2 ->
      exists inp sample bl, ETrim inp p sample bl ∈ t1.
Proof.
  intros H. apply main_trace in H.
  destruct (parseArgs argv) as [a|x].
  2:{ destruct H as [-> ->]. exists []. rewrite app_nil_r. split; [done|].
      intros t1 p t2 E. by destruct t1. }
  destruct H as (t & e & d & reg1 & reg2 & gm & L & P & _ & _).
  exists t. split; [done|]. intros t1 p t2 E.
  assert ((t1 ++ [ERemove p]) `prefix_of` schedule a e d reg1 reg2 gm) as P1.
  { etrans; [|exact P]. exists t2. by rewrite E, <-app_assoc. }
  destruct (schedule_removes_follow_trims _ _ _ _ _ _ _ p P1)
    as (inp & sample & bl & Hin).
  { apply elem_of_app. right. by apply list_elem_of_singleton. }
  apply elem_of_app in Hin as [Hin|Hin]; [eauto|].
  apply list_elem_of_singleton in Hin. discriminate.
Qed.

Lemma only_trimmed_outputs_removed_witness :
  exists t,
    w_log (snd (main Demo.aligner_fails_on_B Demo.argv0 Demo.w0))
      = w_log Demo.w0 ++ t /\
    calls_of "os.remove" t = 1 /\
    forall t1 p t2, t = t1 ++ ERemove p :: t2 ->
      exists inp sample bl, ETrim inp p sample bl ∈ t1.
Proof.
  pose (run := main Demo.aligner_fails_on_B Demo.argv0 Demo.w0).
  destruct (only_trimmed_outputs_removed Demo.aligner_fails_on_B Demo.argv0
              Demo.w0 (fst run) (snd run) (surjective_pairing run))
    as (t & L & Hrm).
  assert (t = w_log (snd run)) as E by (rewrite L; reflexivity).
  exists t. split; [exact L|]. split; [|exact Hrm].
  rewrite E. vm_compute. reflexivity.
Defined.

(** ** The gene-level results handed to the table builder *)

Lemma keys_alist_set_absent {V} k (v : V) (d : list (string * V)) :
  k ∉ keys d -> keys (alist_set k v d) = keys d ++ [k].
Proof.
  induction d as [|[k' v'] d IH]; simpl; [done|].
  rewrite not_elem_of_cons. intros [Hne Hni].
  rewrite decide_False by done. unfold keys in *. simpl. by rewrite IH.
Qed.

(** An iteration that completes adds the sample's result under its key. *)
Lemma sample_body_result (C : Collaborators) e bl d reg gm sample w gm' w' :
  sample_body C e bl d reg gm sample w = (Ok gm', w') ->
  exists g, gm' = alist_set sample g gm.
Proof.
  unfold sample_body. intros H.
  do 9 (apply bind_ok_inv in H as (? & ? & _ & H)).
  inversion H. eauto.
Qed.

Lemma sample_loop_keys (C : Collaborators) e bl d reg samples gm0 w gm w' :
  sample_loop C e bl d reg samples gm0 w = (Ok gm, w') ->
  NoDup samples -> (forall s, s ∈ samples -> s ∉ keys gm0) ->
  keys gm = keys gm0 ++ samples.
Proof.
  unfold sample_loop. revert gm0 w.
  induction samples as [|x xs IH]; intros gm0 w H Hnd Hfresh.
  - inversion H. by rewrite app_nil_r.
  - simpl in H. apply bind_ok_inv in H as (gm1 & w1 & H1 & H).
    apply sample_body_result in H1 as [g ->].
    apply NoDup_cons in Hnd as [Hx Hnd].
    assert (keys (alist_set x g gm0) = keys gm0 ++ [x]) as Hk.
    { apply keys_alist_set_absent, Hfresh, elem_of_cons. auto. }
    rewrite (IH _ _ H Hnd), Hk, <-app_assoc; [done|].
    intros s Hs. rewrite Hk, elem_of_app, list_elem_of_singleton.
    intros [Hin| ->]; [|done].
    revert Hin. apply Hfresh, elem_of_cons. auto.
Qed.

Lemma process_samples_table (C : Collaborators) e bl d reg w r w' :
  process_samples C e bl d reg w = (r, w') ->
  exists t, w_log w' = w_log w ++ t /\
    forall org rg gm ex, EBuildGeneTable org rg gm ex ∈ t ->
      rg = reg /\
      exists w1, sample_loop C e bl d reg (keys reg) [] w = (Ok gm, w1).
Proof.
  unfold process_samples. intros H.
  apply bind_inv in H as [(x & H & ->)|(gm & w1 & H1 & H)].
  - apply sample_loop_log in H as (t & L & P & _). exists t.
    split; [done|]. intros org rg gm ex Hin.
    eapply elem_of_prefix in Hin; [|exact P].
    apply list_elem_of_bind in Hin as (sample & Hin & _).
    by apply sample_steps_tag in Hin.
  - pose proof H1 as H1'.
    apply sample_loop_log in H1' as (t & L & _ & E). rewrite E in L by done.
    apply call_inv in H as [_ L2]. eexists. rewrite L2, L, <-app_assoc.
    split; [done|]. intros org rg gm' ex [Hin|Hin]%elem_of_app.
    + apply list_elem_of_bind in Hin as (sample & Hin & _).
      by apply sample_steps_tag in Hin.
    + apply list_elem_of_singleton in Hin. injection Hin as -> -> -> ->.
      eauto.
Qed.

(** X9.  The gene-level results handed to [buildGeneTable] hold exactly
    one entry for each sample of the registry, in registry order (the keys
    of a registry are pairwise distinct, it being a dictionary). *)
Theorem gene_mappings_follow_registry (C : Collaborators) argv w r w' :
  main C argv w = (r, w') ->
  exists t, w_log w' = w_log w ++ t /\
    forall org reg gm e, EBuildGeneTable org reg gm e ∈ t ->
      NoDup (keys reg) -> keys gm = keys reg.
Proof.
  intros H. apply main_cases in H
    as [(x & H & ->)
       |(a & e & d & reg0 & reg1 & reg2 & w1 & _ & _ & _ & L1 & H)].
  - apply setup_raise_facts in H as (pre & L & F & _). exists pre.
    split; [done|]. intros org reg gm e Hin.
    by eapply Forall_forall in Hin; [|exact F].
  - apply process_samples_table in H as (t2 & L2 & T).
    exists (setup_steps a e reg1 ++ t2). rewrite L2, L1, app_assoc.
    split; [done|]. intros org reg gm ex [Hin|Hin]%elem_of_app.
    + by eapply Forall_forall in Hin; [|apply setup_steps_no_sample_event].
    + destruct (T _ _ _ _ Hin) as (-> & w2 & Hloop). intros Hnd.
      apply sample_loop_keys in Hloop; [done|done|].
      intros s _. apply not_elem_of_nil.
Qed.

Lemma gene_mappings_follow_registry_witness :
  exists t,
    w_log (snd (main Demo.two_samples Demo.argv0 Demo.w0))
      = w_log Demo.w0 ++ t /\
    calls_of "buildGeneTable" t = 1 /\
    forall org reg gm e, EBuildGeneTable org reg gm e ∈ t ->
      NoDup (keys reg) -> keys gm = keys reg.
Proof.
  pose (run := main Demo.two_samples Demo.argv0 Demo.w0).
  destruct (gene_mappings_follow_registry Demo.two_samples Demo.argv0
              Demo.w0 (fst run) (snd run) (surjective_pairing run))
    as (t & L & Hgm).
  assert (t = w_log (snd run)) as E by (rewrite L; reflexivity).
  exists t. split; [exact L|]. split; [|exact Hgm].
  rewrite E. vm_compute. reflexivity.
Defined.

(** ** No clean-up when the aligner fails *)

(** X10.  When the aligner raises for a sample, [main] raises without
    removing anything: the files on disk at the end are exactly those the
    aligner left, so the trimmed reads of the failing sample stay behind
    unless the aligner deleted them itself. *)
Theorem aligner_failure_removes_nothing (C : Collaborators) e bl d reg
    done sample rest gm1 w w1 s inp out osa osb osc x :
  keys reg = done ++ sample :: rest ->
  sample_loop C e bl d reg done [] w = (Ok gm1, w1) ->
  reg_get reg sample = Ok s ->
  dict_get s "demultiplexedPath" = Ok inp ->
  dict_get s "trimmedPath" = Ok out ->
  trim_fastq C inp out sample bl (w_os w1) = (Ok tt, osa) ->
  os_chdir (expanduser C (genomeDir e)) osa = (Ok tt, osb) ->
  bowtieMap C organism ("../" +:+ sample +:+ "_trimmed.fastq")
    ("../" +:+ sample +:+ "_bowtie.txt") osb = (Raise x, osc) ->
  exists x' w',
    process_samples C e bl d reg w = (Raise x', w') /\
    files (w_os w') = files osc /\
    dirs (w_os w') = dirs osc /\
    calls_of "os.remove" (w_log w') = calls_of "os.remove" (w_log w1).
Proof.
  intros Hk Hdone Hs Hi Ho Htrim Hcd Hmap.
  assert (exists x' w', sample_body C e bl d reg gm1 sample w1 = (Raise x', w')
            /\ files (w_os w') = files osc /\ dirs (w_os w') = dirs osc
            /\ w_log w' = w_log w1 ++
                 [ETrim inp out sample bl;
                  EBowtieMap organism ("../" +:+ sample +:+ "_trimmed.fastq")
                    ("../" +:+ sample +:+ "_bowtie.txt")])
    as (x' & w' & Hbody & Hf & Hd & L).
  { unfold sample_body, bind, lift, call, cd, chdir.
    rewrite Hs, Hi, Ho, Htrim. simpl. rewrite Hcd. simpl. rewrite Hmap.
    simpl. destruct (os_chdir (cwd osa) osc) as [[[]|x1] os1] eqn:Eexit; simpl.
    - apply os_chdir_inv in Eexit as [(_ & _ & ->)|(? & _)]; [|discriminate].
      eexists _, _. split; [reflexivity|]. simpl. by rewrite <-app_assoc.
    - apply os_chdir_inv in Eexit as [(? & _)|(_ & _ & ->)]; [discriminate|].
      eexists _, _. split; [reflexivity|]. simpl. by rewrite <-app_assoc. }
  exists x', w'. split_and!; [|done|done|].
  - unfold process_samples, sample_loop in *. unfold bind at 1.
    rewrite Hk, for_each_app. unfold bind at 1. rewrite Hdone. simpl.
    unfold bind at 1. by rewrite Hbody.
  - rewrite L, calls_of_app. unfold calls_of at 2. simpl. lia.
Qed.

Lemma aligner_failure_removes_nothing_witness :
  let C := Demo.aligner_fails_on_A in
  exists x' w',
    process_samples C "exp" 4 1 (Demo.reg_ready C) (Demo.w_ready C)
      = (Raise x', w') /\
    ("/work/exp/A_trimmed.fastq" ∈ files (w_os w')).
Proof.
  intros C.
  pose (reg := Demo.reg_ready C). pose (w := Demo.w_ready C).
  pose (s := default ∅ (alist_get "A" reg)).
  pose (inp := field reg "A" "demultiplexedPath").
  pose (out := field reg "A" "trimmedPath").
  pose (osa := snd (trim_fastq C inp out "A" 4 (w_os w))).
  pose (osb := snd (os_chdir (expanduser C (genomeDir "exp")) osa)).
  pose (osc := snd (bowtieMap C organism ("../" +:+ "A" +:+ "_trimmed.fastq")
                      ("../" +:+ "A" +:+ "_bowtie.txt") osb)).
  assert (keys reg = [] ++ "A" :: ["B"]) as Hk by (vm_compute; reflexivity).
  assert (sample_loop C "exp" 4 1 reg [] [] w = (Ok [], w)) as Hdone
    by reflexivity.
  assert (reg_get reg "A" = Ok s) as Hs by (vm_compute; reflexivity).
  assert (dict_get s "demultiplexedPath" = Ok inp) as Hi
    by (vm_compute; reflexivity).
  assert (dict_get s "trimmedPath" = Ok out) as Ho
    by (vm_compute; reflexivity).
  assert (trim_fastq C inp out "A" 4 (w_os w) = (Ok tt, osa)) as Htrim
    by (vm_compute; reflexivity).
  assert (os_chdir (expanduser C (genomeDir "exp")) osa = (Ok tt, osb)) as Hcd
    by (vm_compute; reflexivity).
  assert (bowtieMap C organism ("../" +:+ "A" +:+ "_trimmed.fastq")
            ("../" +:+ "A" +:+ "_bowtie.txt") osb
          = (Raise (ExternalError "bowtie"), osc)) as Hmap
    by (vm_compute; reflexivity).
  assert ("/work/exp/A_trimmed.fastq" ∈ files osc) as Hleft
    by (apply (bool_decide_eq_true_1 _); vm_compute; reflexivity).
  destruct (aligner_failure_removes_nothing C "exp" 4 1 reg [] "A" ["B"] []
              w w s inp out osa osb osc (ExternalError "bowtie")
              Hk Hdone Hs Hi Ho Htrim Hcd Hmap)
    as (x' & w' & Hrun & Hf & _).
  exists x', w'. split; [exact Hrun|]. rewrite Hf. exact Hleft.
Defined.

(** ** The files of a run with [--nobarcodes] *)

Lemma bind_ext_in {A B} (f g : A -> list B) (l : list A) :
  (forall x, x ∈ l -> f x = g x) -> l ≫= f = l ≫= g.
Proof.
  induction l as [|x l IH]; intros H; [done|].
  rewrite !bind_cons, (H x), IH; [done| |apply elem_of_cons; auto].
  intros y Hy. apply H, elem_of_cons. auto.
Qed.

Lemma fmap_ext_in {A B} (f g : A -> B) (l : list A) :
  (forall x, x ∈ l -> f x = g x) -> f <$> l = g <$> l.
Proof.
  induction l as [|x l IH]; intros H; [done|].
  rewrite !fmap_cons, (H x), IH; [done| |apply elem_of_cons; auto].
  intros y Hy. apply H, elem_of_cons. auto.
Qed.

(** The path fields of a sample whose name is its key. *)
Lemma attached_fields e reg0 reg1 k :
  attached e reg0 reg1 ->
  (forall k s, alist_get k reg0 = Some s -> s !! "name" = Some k) ->
  k ∈ keys reg0 ->
  field reg1 k "demultiplexedPath" = demultiplexedPath_of e k /\
  field reg1 k "trimmedPath" = trimmedPath_of e k.
Proof.
  intros [_ Hatt] Hnames Hk.
  destruct (alist_get_keys_Some _ _ Hk) as [s Hs].
  unfold field. rewrite Hatt, Hs. simpl. unfold attach_entry.
  rewrite (Hnames _ _ Hs). split.
  - rewrite lookup_insert_ne by done. by rewrite lookup_insert_eq.
  - by rewrite lookup_insert_eq.
Qed.

(** X11.  With [--nobarcodes] and a sample list whose entries are named
    after their keys, a run that returns has made exactly these calls, the
    samples being taken in registry order each time: the sample list is
    read without barcode checks; the directories are created; each
    [<reads>/<sample>.fastq.gz] is copied to
    [<experiment>/raw_data/<sample>.fastq.gz]; the genome files and the
    index are built; then for each sample the copy is trimmed with length
    0 into [<experiment>/<sample>_trimmed.fastq], the aligner is run on
    [../<sample>_trimmed.fastq] and writes [../<sample>_bowtie.txt], the
    trimmed file is removed, [<experiment>/<sample>_bowtie.txt] is mapped
    to sites and genes; last, the table is built. *)
Theorem nobarcodes_file_flow (C : Collaborators) argv a e d w w' os0
    reg0 os1 :
  parseArgs argv = Ok a ->
  a_nobarcodes a = true ->
  convert_to_filename C (a_experiment a) (w_os w) = (Ok e, os0) ->
  py_float (float_of_str C) (a_disruption a) = Ok d ->
  sample_prep C (a_samples a) false os0 = (Ok reg0, os1) ->
  (forall k s, alist_get k reg0 = Some s -> s !! "name" = Some k) ->
  main C argv w = (Ok tt, w') ->
  let dir := if decide (last_char (a_input a) = Some "/"%char)
             then a_input a else a_input a +:+ "/" in
  exists reg1 gm,
    w_log w' = w_log w ++
      [EConvertToFilename (a_experiment a);
       ESamplePrep (a_samples a) false; ECreateDirs e]
      ++ ((λ k, ECopyfile (dir +:+ k +:+ ".fastq.gz")
                          (e +:+ "/raw_data/" +:+ k +:+ ".fastq.gz"))
            <$> keys reg0)
      ++ [EGbk2fna (a_genome a) "genome" (e +:+ "/genome_lookup/");
          EGbk2ftt (a_genome a) "genome" (e +:+ "/genome_lookup/");
          EBowtieBuild "genome"]
      ++ (keys reg0 ≫= λ k,
            [ETrim (e +:+ "/raw_data/" +:+ k +:+ ".fastq.gz")
                   (e +:+ "/" +:+ k +:+ "_trimmed.fastq") k 0;
             EBowtieMap "genome" ("../" +:+ k +:+ "_trimmed.fastq")
                        ("../" +:+ k +:+ "_bowtie.txt");
             ERemove (e +:+ "/" +:+ k +:+ "_trimmed.fastq");
             EMapSites (e +:+ "/" +:+ k +:+ "_bowtie.txt");
             EMapGenes "genome" k d e])
      ++ [EBuildGeneTable "genome" reg1 gm e].
Proof.
  intros Ha Hnb Hc Hd Hprep Hnames H. cbv zeta.
  apply main_cases in H
    as [(x & _ & ?)
       |(a' & e' & d' & reg0' & reg1 & reg2 & w1 & Hloop & Hatt & Hsame & L1
         & H)]; [done|].
  pose proof Hloop
    as (_ & _ & (os0' & os1' & _ & Ha' & Hc' & Hd' & Hprep' & _) & _).
  rewrite Ha in Ha'. injection Ha' as <-.
  rewrite Hc in Hc'. injection Hc' as <- <-.
  rewrite Hd in Hd'. injection Hd' as <-.
  rewrite Hnb in *. simpl in Hprep'. rewrite Hprep in Hprep'.
  injection Hprep' as <- <-. rewrite (Hsame eq_refl) in *.
  apply process_samples_log in H as (t2 & gm & L2 & _ & E2).
  rewrite (E2 eq_refl) in L2. exists reg1, gm.
  rewrite L2, L1, <-!app_assoc. f_equal.
  unfold setup_steps, staging_steps, copy_steps, genome_steps, loop_steps,
    organism, genomeDir.
  rewrite Hnb. simpl. do 3 f_equal. rewrite <-!app_assoc.
  destruct Hatt as [Hkeys Hget]. rewrite Hkeys. f_equal.
  - apply fmap_ext_in. intros k Hk.
    destruct (attached_fields _ _ _ k (conj Hkeys Hget) Hnames Hk) as [-> _].
    done.
  - simpl. do 3 f_equal. f_equal. apply bind_ext_in. intros k Hk.
    destruct (attached_fields _ _ _ k (conj Hkeys Hget) Hnames Hk)
      as [Hdp Htp].
    unfold sample_steps. by rewrite Hdp, Htp.
Qed.

Lemma demo_names_are_keys k s :
  alist_get k (Demo.registry_of ["A"; "B"]) = Some s -> s !! "name" = Some k.
Proof.
  change (Demo.registry_of ["A"; "B"])
    with [Demo.entry "A" "ACGT"; Demo.entry "B" "TTTT"].
  unfold Demo.entry, alist_get.
  destruct (decide (k = "A")) as [->|_];
    [intros [= <-]; vm_compute; reflexivity|].
  destruct (decide (k = "B")) as [->|_];
    [intros [= <-]; vm_compute; reflexivity|].
  discriminate.
Qed.

Lemma nobarcodes_file_flow_witness :
  exists reg1 gm,
    last (w_log (snd (main Demo.two_samples (Demo.argv_nobarcodes "in")
                        Demo.w0)))
      = Some (EBuildGeneTable "genome" reg1 gm "exp") /\
    ev_tag <$> w_log (snd (main Demo.two_samples (Demo.argv_nobarcodes "in")
                             Demo.w0))
      = ["convert_to_filename"; "sample_prep"; "createExperimentDirectories";
         "copyfile"; "copyfile";
         "gbk2fna"; "gbk2ftt"; "bowtieBuild";
         "trim_fastq"; "bowtieMap"; "os.remove"; "mapSites"; "mapGenes";
         "trim_fastq"; "bowtieMap"; "os.remove"; "mapSites"; "mapGenes";
         "buildGeneTable"].
Proof.
  pose (run := main Demo.two_samples (Demo.argv_nobarcodes "in") Demo.w0).
  assert (run = (Ok tt, snd run)) as H by (vm_compute; reflexivity).
  destruct (nobarcodes_file_flow Demo.two_samples (Demo.argv_nobarcodes "in")
              (mkArgs "in" "samples.txt" "exp" "genome.gbk" (VFloat 1) true)
              "exp" 1%float Demo.w0 (snd run) Demo.os0
              (Demo.registry_of ["A"; "B"]) Demo.os0
              eq_refl eq_refl eq_refl eq_refl eq_refl demo_names_are_keys H)
    as (reg1 & gm & L).
  exists reg1, gm. split.
  - fold run. rewrite L, !app_assoc. apply last_snoc.
  - vm_compute. reflexivity.
Defined.
